(** * myEPG: the guide aggregation pipeline of [merge.py]

    A shallow embedding of [fetch_epg], [parse_epg], [write_to_xml] and the
    merge loop of [main], together with the properties the design document
    states about them.

    Conventions.
    - A Python [str] is a [string]; a character is one of the 256 code points
      of [ascii] (code points beyond Latin-1 play no part in what follows).
    - [None] is [None]: a value that may be [None] has an [option] type.
    - A [dict] keeps its insertion order, so it is an association list with
      unique keys, updated in place ([Dict.set]).
    - The process-wide [epg_cache], the messages printed and the calls made
      to the external collaborators live in a [World] threaded through the
      code by a small state monad.
    - The collaborators that are not part of the repository (the OpenCC
      converter, the MD5 fingerprint, the ElementTree reader and
      [datetime.strptime]) are the variables of the section [Pipeline]. *)

From Stdlib Require Import String Ascii ZArith Lia DecimalString.
From stdpp Require Import base option list strings gmap.

Local Open Scope string_scope.
Local Open Scope nat_scope.
Local Open Scope list_scope.

(** ** Python strings *)

Module PyStr.

(** [str.isspace] on the code points below 256; the regular expression
    class [\s] of a [str] pattern accepts the same characters. *)
Definition isspace (c : ascii) : bool :=
  let n := nat_of_ascii c in
  ((9 <=? n) && (n <=? 13) || (28 <=? n) && (n <=? 32)
   || (n =? 133) || (n =? 160))%nat.

Fixpoint lstrip (s : string) : string :=
  match s with
  | EmptyString => EmptyString
  | String c r => if isspace c then lstrip r else s
  end.

Definition rstrip (s : string) : string := String.rev (lstrip (String.rev s)).

(** [s.strip()] *)
Definition strip (s : string) : string := rstrip (lstrip s).

(** [re.sub(r'\s+', '', s)]: every maximal run of whitespace is replaced
    by the empty string, that is, every whitespace character is dropped. *)
Fixpoint remove_whitespace (s : string) : string :=
  match s with
  | EmptyString => EmptyString
  | String c r =>
      if isspace c then remove_whitespace r else String c (remove_whitespace r)
  end.

(** [s[:n]] *)
Definition prefix (n : nat) (s : string) : string := substring 0 n s.

(** Truthiness of a value that is a [str] or [None]. *)
Definition truthy (s : option string) : bool :=
  match s with
  | Some (String _ _) => true
  | _ => false
  end.


End PyStr.

(** ** Insertion-ordered dictionaries *)

Module Dict.

Definition t (V : Type) : Type := list (string * V).

Section Ops.
Context {V : Type}.

Fixpoint get (k : string) (d : t V) : option V :=
  match d with
  | [] => None
  | (k', v) :: r => if decide (k' = k) then Some v else get k r
  end.

(** [d[k] = v]: an existing key keeps its position. *)
Fixpoint set (k : string) (v : V) (d : t V) : t V :=
  match d with
  | [] => [(k, v)]
  | (k', v') :: r =>
      if decide (k' = k) then (k, v) :: r else (k', v') :: set k v r
  end.

(** [d.update(other)] *)
Definition update (d other : t V) : t V :=
  fold_left (fun acc kv => set kv.1 kv.2 acc) other d.

Definition keys (d : t V) : list string := d.*1.

(** [bool(d)] *)
Definition nonempty (d : t V) : bool :=
  match d with [] => false | _ :: _ => true end.

End Ops.

(** A [defaultdict(list)]: a missing key reads as the empty list. *)
Definition getlist {A} (k : string) (d : t (list A)) : list A :=
  default [] (get k d).

(** [d[k].append(x)] *)
Definition append {A} (k : string) (x : A) (d : t (list A)) : t (list A) :=
  set k (getlist k d ++ [x]) d.

(** [d[k].extend(xs)] *)
Definition extend {A} (k : string) (xs : list A) (d : t (list A)) : t (list A) :=
  set k (getlist k d ++ xs) d.

End Dict.

(** ** ElementTree elements *)

#[warnings="-register-all"]
Inductive Element : Type :=
  mkElement {
    tag : string;
    attrib : Dict.t string;
    text : option string;
    children : list Element
  }.

Module ET.

(** [ET.Element(tag)] *)
Definition Element_ (t : string) : Element := mkElement t [] None [].

(** [e.get(k)] *)
Definition get (e : Element) (k : string) : option string :=
  Dict.get k (attrib e).

(** [e.set(k, v)] *)
Definition set (k v : string) (e : Element) : Element :=
  mkElement (tag e) (Dict.set k v (attrib e)) (text e) (children e).

(** [e.findall(t)]: the direct children with tag [t], in document order. *)
Definition findall (e : Element) (t : string) : list Element :=
  filter (fun c => tag c = t) (children e).

(** [e.find(t)]: the first of them, or [None]. *)
Definition find (e : Element) (t : string) : option Element :=
  head (findall e t).

(** [e.append(c)] *)
Definition append (c : Element) (e : Element) : Element :=
  mkElement (tag e) (attrib e) (text e) (children e ++ [c]).

(** [ET.SubElement(parent, t)] with its [text] set to [txt] at once. *)
Definition SubElement_text (t : string) (txt : option string) (parent : Element) : Element :=
  append (mkElement t [] txt []) parent.

End ET.

(** ** Timestamps *)

(** A [datetime] object: the wall-clock fields and the offset of its
    [tzinfo] from UTC, in seconds. *)
Record datetime : Type :=
  mkDatetime {
    year : nat; month : nat; day : nat;
    hour : nat; minute : nat; second : nat;
    utcoffset : Z
  }.

Module Strftime.

Definition digit_char (d : nat) : ascii := ascii_of_nat (48 + d).

(** The last [width] decimal digits of [n], with leading zeros. *)
Fixpoint zero_padded (width n : nat) : string :=
  match width with
  | 0 => ""
  | S w => String (digit_char (n / 10 ^ w mod 10)) (zero_padded w n)
  end.

(** [%z]: the sign and the hours and minutes of the offset. *)
Definition offset_field (off : Z) : string :=
  let m := Z.to_nat (Z.abs off / 60) in
  (if (off <? 0)%Z then "-" else "+")
  +:+ zero_padded 2 (m / 60) +:+ zero_padded 2 (m mod 60).

(** A number as the C library writes it for [%d]: its decimal digits,
    without leading zeros. *)
Definition decimal (n : nat) : string := NilEmpty.string_of_uint (Nat.to_uint n).

(** The directives of the format.  [%Y] is the year as a decimal number:
    the C library of the platform the program runs on (glibc) does not pad
    it, so that a year below 1000 is written with fewer than four digits;
    the other numeric fields always have two digits. *)
Definition directive (c : ascii) (dt : datetime) : string :=
  if decide (c = "Y"%char) then decimal (year dt)
  else if decide (c = "m"%char) then zero_padded 2 (month dt)
  else if decide (c = "d"%char) then zero_padded 2 (day dt)
  else if decide (c = "H"%char) then zero_padded 2 (hour dt)
  else if decide (c = "M"%char) then zero_padded 2 (minute dt)
  else if decide (c = "S"%char) then zero_padded 2 (second dt)
  else if decide (c = "z"%char) then offset_field (utcoffset dt)
  else if decide (c = "%"%char) then "%"
  else String "%" (String c "").

(** [dt.strftime(fmt)] for the directives above; every other character of
    the format is copied as it stands. *)
Fixpoint strftime (fmt : string) (dt : datetime) : string :=
  match fmt with
  | EmptyString => EmptyString
  | String c r =>
      match r with
      | String c' r' =>
          if decide (c = "%"%char) then directive c' dt +:+ strftime r' dt
          else String c (strftime r dt)
      | EmptyString => String c EmptyString
      end
  end.

(** The wall-clock digits [%Y%m%d%H%M%S]: the year, then two digits each
    for the month, the day, the hour, the minute and the second; fourteen
    digits from the year 1000 on. *)
Definition wall_clock (dt : datetime) : string :=
  decimal (year dt) +:+ zero_padded 2 (month dt) +:+ zero_padded 2 (day dt)
  +:+ zero_padded 2 (hour dt) +:+ zero_padded 2 (minute dt)
  +:+ zero_padded 2 (second dt).

End Strftime.

(** The format [parse_epg] and [write_to_xml] hand to [strftime]. *)
Definition output_format : string := "%Y%m%d%H%M%S +0800".

(** ** The world: cache, object identities, observable events *)

(** What [parse_epg] returns: the [channels] dict and the [programmes]
    defaultdict.  Each carries the identity of the Python object
    ([channels_oid], [programmes_oid]), so that "the same object" and "an
    equal object" can be told apart. *)
Record ParseResult : Type :=
  mkParseResult {
    channels_oid : nat;
    programmes_oid : nat;
    channels : Dict.t (option string);
    programmes : Dict.t (list Element)
  }.

Inductive Msg : Type :=
| MsgEmptyContent
| MsgCacheHit
| MsgXmlError
| MsgProblematicContent (shown : string)
| MsgTimeFormat
| MsgCached
| MsgConvertFailed (input : string)
| MsgUrlEmpty (n : nat)
| MsgHttpError (url : string)
| MsgTimeout (url : string)
| MsgOtherError (url : string)
| MsgParsed (ok total : nat)
| MsgNoChannels
| MsgNoUrls.

Inductive Event : Type :=
| Printed (m : Msg)
| Called_fromstring (content : string)
| Called_convert (s : string).

Record World : Type :=
  mkWorld {
    epg_cache : gmap string ParseResult;
    next_oid : nat;
    trace : list Event
  }.

Definition initial_world : World := mkWorld ∅ 0 [].

Definition M (A : Type) : Type := World -> A * World.

Definition ret {A} (a : A) : M A := fun w => (a, w).

Definition bind {A B} (c : M A) (k : A -> M B) : M B :=
  fun w => let (a, w') := c w in k a w'.

Notation "'do' x <- c ;; k" := (bind c (fun x => k))
  (at level 10, x name, c at level 99, k at level 200).

Definition emit (ev : Event) : M unit :=
  fun w => (tt, mkWorld (epg_cache w) (next_oid w) (trace w ++ [ev])).

Definition print (m : Msg) : M unit := emit (Printed m).

(** A new object: its identity is the next unused one. *)
Definition new_object : M nat :=
  fun w => (next_oid w, mkWorld (epg_cache w) (S (next_oid w)) (trace w)).

Definition cache_lookup (h : string) : M (option ParseResult) :=
  fun w => (epg_cache w !! h, w).

Definition cache_store (h : string) (r : ParseResult) : M unit :=
  fun w => (tt, mkWorld (<[h := r]> (epg_cache w)) (next_oid w) (trace w)).

(** [for x in xs: acc = body(x, acc)] *)
Fixpoint for_each {A S} (xs : list A) (body : A -> S -> M S) (acc : S) : M S :=
  match xs with
  | [] => ret acc
  | x :: r => do acc' <- body x acc ;; for_each r body acc'
  end.

(** The number of calls of the markup reader and of the script converter
    a trace records. *)
Definition is_parse_call (ev : Event) : bool :=
  match ev with Called_fromstring _ => true | _ => false end.

Definition is_convert_call (ev : Event) : bool :=
  match ev with Called_convert _ => true | _ => false end.

Definition parse_count (w : World) : nat :=
  length (List.filter is_parse_call (trace w)).

Definition convert_count (w : World) : nat :=
  length (List.filter is_convert_call (trace w)).

(** ** The collaborators outside the repository *)

Class Collaborators : Type :=
  {
    (** [cc.convert(s)] of OpenCC('t2s'); [None] when it raises. *)
    cc_convert : string -> option string;
    (** [hashlib.md5(s.encode('utf-8')).hexdigest()] *)
    md5_hexdigest : string -> string;
    (** [ET.fromstring(s, parser)]; [None] when it raises [ET.ParseError]. *)
    fromstring : string -> option Element;
    (** [datetime.strptime(s, "%Y%m%d%H%M%S%z")]; [None] when it raises
        [ValueError]. *)
    strptime : string -> option datetime
  }.

(** ** The Guide Parser and the Content Cache *)

Section Parser.
Context `{Collaborators}.

(** [transform2_zh_hans].  Its argument is an attribute value or the text
    of an element, a [str] or [None], so the [isinstance] branch is never
    taken. *)
Definition transform2_zh_hans (s : option string) : M (option string) :=
  match s with
  | None => ret None
  | Some str =>
      do _ <- emit (Called_convert str) ;;
      match cc_convert str with
      | Some converted => ret (Some converted)
      | None => do _ <- print (MsgConvertFailed str) ;; ret (Some str)
      end
  end.

Definition get_content_hash (epg_content : string) : string :=
  md5_hexdigest epg_content.

(** [return {}, defaultdict(list)]: two new, empty objects. *)
Definition return_empty : M ParseResult :=
  do c <- new_object ;;
  do p <- new_object ;;
  ret (mkParseResult c p [] []).

(** The body of [for channel in root.findall('channel')]. *)
Definition channel_body (channel : Element) (channels : Dict.t (option string))
  : M (Dict.t (option string)) :=
  do channel_id <- transform2_zh_hans (ET.get channel "id") ;;
  match channel_id with
  | Some (String _ _ as channel_id) =>
      let display_name_elem := ET.find channel "display-name" in
      do display_name <-
        transform2_zh_hans
          (match display_name_elem with
           | Some elem => text elem
           | None => Some ""
           end) ;;
      ret (Dict.set channel_id display_name channels)
  | _ => ret channels
  end.

(** The element built for an admitted programme, before its optional
    description is attached. *)
Definition new_programme (channel_id : string) (channel_start channel_stop : datetime)
    (channel_title : option string) : Element :=
  let programme_elem := ET.Element_ "programme" in
  let programme_elem := ET.set "channel" channel_id programme_elem in
  let programme_elem :=
    ET.set "start" (Strftime.strftime output_format channel_start) programme_elem in
  let programme_elem :=
    ET.set "stop" (Strftime.strftime output_format channel_stop) programme_elem in
  ET.SubElement_text "title" channel_title programme_elem.

(** The body of [for programme in root.findall('programme')]; every
    [continue] returns the accumulator unchanged. *)
Definition programme_body (programme : Element) (programmes : Dict.t (list Element))
  : M (Dict.t (list Element)) :=
  do channel_id <- transform2_zh_hans (ET.get programme "channel") ;;
  match channel_id with
  | Some (String _ _ as channel_id) =>
      match ET.get programme "start", ET.get programme "stop" with
      | Some (String _ _ as start_time), Some (String _ _ as stop_time) =>
          let start_time_clean := PyStr.remove_whitespace start_time in
          let stop_time_clean := PyStr.remove_whitespace stop_time in
          match strptime start_time_clean with
          | None => do _ <- print MsgTimeFormat ;; ret programmes
          | Some channel_start =>
              match strptime stop_time_clean with
              | None => do _ <- print MsgTimeFormat ;; ret programmes
              | Some channel_stop =>
                  match ET.find programme "title" with
                  | Some (mkElement _ _ (Some title_text) _) =>
                      do channel_title <- transform2_zh_hans (Some title_text) ;;
                      let programme_elem :=
                        new_programme channel_id channel_start channel_stop channel_title in
                      do programme_elem <-
                        match ET.find programme "desc" with
                        | Some (mkElement _ _ (Some desc_text) _) =>
                            do channel_desc <- transform2_zh_hans (Some desc_text) ;;
                            ret (ET.SubElement_text "desc" channel_desc programme_elem)
                        | _ => ret programme_elem
                        end ;;
                      ret (Dict.append channel_id programme_elem programmes)
                  | _ => ret programmes
                  end
              end
          end
      | _, _ => ret programmes
      end
  | _ => ret programmes
  end.

(** [parse_epg] from the creation of [channels] and [programmes] on: the
    work a cache hit saves. *)
Definition parse_uncached (epg_content : string) (use_cache : bool) : M ParseResult :=
  do channels_id <- new_object ;;
  do programmes_id <- new_object ;;
  do _ <- emit (Called_fromstring epg_content) ;;
  match fromstring epg_content with
  | None =>
      do _ <- print MsgXmlError ;;
      do _ <- print (MsgProblematicContent (PyStr.prefix 500 epg_content)) ;;
      return_empty
  | Some root =>
      do channels <- for_each (ET.findall root "channel") channel_body [] ;;
      do programmes <- for_each (ET.findall root "programme") programme_body [] ;;
      let result := mkParseResult channels_id programmes_id channels programmes in
      do _ <-
        (if use_cache then
           do _ <- cache_store (get_content_hash epg_content) result ;;
           print MsgCached
         else ret tt) ;;
      ret result
  end.

Definition parse_epg (epg_content : option string) (use_cache : bool) : M ParseResult :=
  match epg_content with
  | None => do _ <- print MsgEmptyContent ;; return_empty
  | Some content =>
      if decide (PyStr.strip content = "") then
        do _ <- print MsgEmptyContent ;; return_empty
      else
        let content_hash := get_content_hash content in
        do cached <- cache_lookup content_hash ;;
        match (if use_cache then cached else None) with
        | Some result => do _ <- print MsgCacheHit ;; ret result
        | None => parse_uncached content use_cache
        end
  end.

End Parser.

(** ** The Fetcher *)

Module Fetcher.

(** The exception classes [fetch_epg] tells apart. *)
Inductive Exn : Type :=
| ClientError        (* aiohttp.ClientError and its subclasses *)
| TimeoutError       (* asyncio.TimeoutError *)
| OtherException.    (* any other subclass of Exception *)

Inductive Outcome (A : Type) : Type :=
| Returns (a : A)
| Raises (e : Exn).
Arguments Returns {A} a.
Arguments Raises {A} e.

Definition and_then {A B} (o : Outcome A) (k : A -> Outcome B) : Outcome B :=
  match o with
  | Returns a => k a
  | Raises e => Raises e
  end.

(** What the server answered: the status line and what reading the body
    as UTF-8 text gives. *)
Record Response : Type :=
  mkResponse { status : nat; read_text : Outcome string }.

(** The network, as seen by the task at position [i] asking for [url]. *)
Definition Network : Type := nat -> string -> Outcome Response.

(** [response.raise_for_status()] *)
Definition raise_for_status (r : Response) : Outcome unit :=
  if 400 <=? status r then Raises ClientError else Returns tt.

(** The [try] block of [fetch_epg]. *)
Definition attempt (net : Network) (i : nat) (url : string) : Outcome string :=
  and_then (net i url) (fun response =>
  and_then (raise_for_status response) (fun _ =>
  read_text response)).

(** [fetch_epg]: the text or [None], and the message printed if any. *)
Definition fetch_epg (net : Network) (i : nat) (url : string) : option string * option Msg :=
  match attempt net i url with
  | Returns body => (Some body, None)
  | Raises ClientError => (None, Some (MsgHttpError url))
  | Raises TimeoutError => (None, Some (MsgTimeout url))
  | Raises OtherException => (None, Some (MsgOtherError url))
  end.

(** [tasks = [fetch_epg(url) for url in urls]] gathered: the results come
    in the order of the tasks, whatever the order they finish in. *)
Definition gather (net : Network) (urls : list string) : list (option string * option Msg) :=
  imap (fetch_epg net) urls.

Definition fetch_all (net : Network) (urls : list string) : list (option string) :=
  (gather net urls).*1.

End Fetcher.

(** ** The Merge Engine *)

Record Aggregate : Type :=
  mkAggregate {
    all_channels : Dict.t (option string);
    all_programmes : Dict.t (list Element);
    successful_parses : nat
  }.

Definition empty_aggregate : Aggregate := mkAggregate [] [] 0.

(** [for channel_id, prog_list in programmes.items():
       all_programmes[channel_id].extend(prog_list)] *)
Definition extend_all (all_programmes programmes : Dict.t (list Element))
  : Dict.t (list Element) :=
  fold_left (fun acc kv => Dict.extend kv.1 kv.2 acc) programmes all_programmes.

(** What the loop of [main] does with one parse result. *)
Definition merge_one (agg : Aggregate) (r : ParseResult) : Aggregate :=
  if Dict.nonempty (channels r) then
    mkAggregate
      (Dict.update (all_channels agg) (channels r))
      (extend_all (all_programmes agg) (programmes r))
      (S (successful_parses agg))
  else agg.

(** The fold over an ordered sequence of parse results. *)
Definition merge (results : list ParseResult) : Aggregate :=
  fold_left merge_one results empty_aggregate.

(** ** The Serializer's input *)

(** [write_to_xml] up to the tree handed to [ET.tostring]; [current_time]
    is [datetime.now()]. *)
Definition channel_tree (kv : string * option string) : Element :=
  mkElement "channel" [("id", kv.1)] None
    [mkElement "display-name" [("lang", "zh")] kv.2 []].

Definition add_channel (root : Element) (kv : string * option string) : Element :=
  ET.append (channel_tree kv) root.

Definition add_programmes (root : Element) (kv : string * list Element) : Element :=
  fold_left (fun root prog => ET.append (ET.set "channel" kv.1 prog) root) kv.2 root.

Definition write_to_xml (channels : Dict.t (option string))
    (programmes : Dict.t (list Element)) (current_time : datetime) : Element :=
  let root :=
    mkElement "tv" [("date", Strftime.strftime output_format current_time)] None [] in
  let root := fold_left add_channel channels root in
  fold_left add_programmes programmes root.

(** The programme elements [write_to_xml] appends, in their order: each
    has its [channel] set to the key it is stored under. *)
Definition written_programmes (programmes : Dict.t (list Element)) : list Element :=
  concat (map (fun kv => map (ET.set "channel" kv.1) kv.2) programmes).

(** ** The run *)

Section Run.
Context `{Collaborators}.

(** The body of [for i, epg_content in enumerate(epg_contents)].
    [parse_epg] raises nothing, so the [except] clause around it is never
    entered. *)
Definition main_body (item : nat * option string) (agg : Aggregate) : M Aggregate :=
  match item.2 with
  | None => do _ <- print (MsgUrlEmpty (item.1 + 1)) ;; ret agg
  | Some epg_content =>
      do r <- parse_epg (Some epg_content) true ;;
      ret (merge_one agg r)
  end.

Definition main_loop (epg_contents : list (option string)) : M Aggregate :=
  for_each (imap pair epg_contents) main_body empty_aggregate.

(** [main] from the list of locators to the tree that is written;
    [None] when the run stops before writing. *)
Definition main (net : Fetcher.Network) (urls : list string) (now : datetime)
  : M (option Element) :=
  match urls with
  | [] => do _ <- print MsgNoUrls ;; ret None
  | _ :: _ =>
      let epg_contents := Fetcher.fetch_all net urls in
      do agg <- main_loop epg_contents ;;
      do _ <- print (MsgParsed (successful_parses agg) (length urls)) ;;
      match all_channels agg with
      | [] => do _ <- print MsgNoChannels ;; ret None
      | _ :: _ =>
          ret (Some (write_to_xml (all_channels agg) (all_programmes agg) now))
      end
  end.

End Run.

(** ** What the parser computes, without the world

    The functions below give the value each loop body of [parse_epg]
    computes; the world only records the calls and the messages.  They are
    related to the monadic code by [channel_body_run], [programme_body_run]
    and [parse_uncached_wellformed]. *)

Section Pure.
Context `{Collaborators}.

(** The value of [transform2_zh_hans]. *)
Definition normalize (s : option string) : option string :=
  match s with
  | None => None
  | Some str => Some (default str (cc_convert str))
  end.

Definition transform2_events (s : option string) : list Event :=
  match s with
  | None => []
  | Some str =>
      Called_convert str ::
      match cc_convert str with
      | Some _ => []
      | None => [Printed (MsgConvertFailed str)]
      end
  end.

Definition channel_step (channels : Dict.t (option string)) (channel : Element)
  : Dict.t (option string) :=
  match normalize (ET.get channel "id") with
  | Some (String _ _ as channel_id) =>
      Dict.set channel_id
        (normalize
           (match ET.find channel "display-name" with
            | Some elem => text elem
            | None => Some ""
            end))
        channels
  | _ => channels
  end.

Definition with_desc (programme programme_elem : Element) : Element :=
  match ET.find programme "desc" with
  | Some (mkElement _ _ (Some desc_text) _) =>
      ET.SubElement_text "desc" (normalize (Some desc_text)) programme_elem
  | _ => programme_elem
  end.

(** The key and the element a programme of the document is filed as, or
    [None] when the loop skips it. *)
Definition filed_as (programme : Element) : option (string * Element) :=
  match normalize (ET.get programme "channel") with
  | Some (String _ _ as channel_id) =>
      match ET.get programme "start", ET.get programme "stop" with
      | Some (String _ _ as start_time), Some (String _ _ as stop_time) =>
          match strptime (PyStr.remove_whitespace start_time),
                strptime (PyStr.remove_whitespace stop_time),
                ET.find programme "title" with
          | Some channel_start, Some channel_stop,
            Some (mkElement _ _ (Some title_text) _) =>
              Some (channel_id,
                    with_desc programme
                      (new_programme channel_id channel_start channel_stop
                         (normalize (Some title_text))))
          | _, _, _ => None
          end
      | _, _ => None
      end
  | _ => None
  end.

Definition programme_step (programmes : Dict.t (list Element)) (programme : Element)
  : Dict.t (list Element) :=
  match filed_as programme with
  | Some (channel_id, programme_elem) => Dict.append channel_id programme_elem programmes
  | None => programmes
  end.

Definition document_channels (root : Element) : Dict.t (option string) :=
  fold_left channel_step (ET.findall root "channel") [].

Definition document_programmes (root : Element) : Dict.t (list Element) :=
  fold_left programme_step (ET.findall root "programme") [].

(** ** Invariants of the cache *)

(** Every entry was stored by a parse of some well-formed document. *)
Definition cache_sound (w : World) : Prop :=
  forall h r, epg_cache w !! h = Some r ->
    exists root, channels r = document_channels root
                 /\ programmes r = document_programmes root.

(** The fingerprint of [content] identifies it: an entry under it, if
    any, was stored by a parse of [content] itself. *)
Definition cache_agrees (content : string) (w : World) : Prop :=
  forall r, epg_cache w !! get_content_hash content = Some r ->
    exists w0, is_Some (fromstring content)
               /\ r = (parse_uncached content true w0).1.

End Pure.

(** ** Predicates of the design document *)

(** [programmesByChannel[k]] only contains programmes whose channel is [k]. *)
Definition keyed (d : Dict.t (list Element)) : Prop :=
  Forall (fun kv => Forall (fun p => ET.get p "channel" = Some kv.1) kv.2) d.

(** The display name of [k] in the last of [results] that defines [k]. *)
Fixpoint last_defined (k : string) (results : list ParseResult) : option (option string) :=
  match results with
  | [] => None
  | r :: rest =>
      match last_defined k rest with
      | Some name => Some name
      | None => Dict.get k (channels r)
      end
  end.

(** The programmes the sources contribute under [k], in source order. *)
Definition contributions (k : string) (results : list ParseResult) : list Element :=
  concat (map (fun r => Dict.getlist k (programmes r)) results).

(** The sources the loop of [main] merges: those with a channel. *)
Definition merged_sources (results : list ParseResult) : list ParseResult :=
  List.filter (fun r => Dict.nonempty (channels r)) results.


Section Admission.
Context `{Collaborators}.

(** The elements filed under [k] for the programmes [es], in their order. *)
Definition filed_under (k : string) (es : list Element) : list Element :=
  omap (fun e =>
          match filed_as e with
          | Some (k', p) => if decide (k' = k) then Some p else None
          | None => None
          end) es.

(** The timestamp attribute [name] is there and, once its whitespace is
    removed, is accepted by [strptime] with value [dt]. *)
Definition timestamp_parses (programme : Element) (name : string) (dt : datetime) : Prop :=
  exists value,
    ET.get programme name = Some value /\ value <> ""
    /\ strptime (PyStr.remove_whitespace value) = Some dt.

(** The [title] child is there and has the text [title_text]. *)
Definition has_title (programme : Element) (title_text : string) : Prop :=
  exists title_elem,
    ET.find programme "title" = Some title_elem /\ text title_elem = Some title_text.



End Admission.


(** The results [parse_epg] returns along the loop of [main], one for
    each document that was fetched. *)
Fixpoint loop_results `{Collaborators} (items : list (nat * option string)) (w : World)
  : list ParseResult :=
  match items with
  | [] => []
  | (i, None) :: rest => loop_results rest (print (MsgUrlEmpty (i + 1)) w).2
  | (_, Some content) :: rest =>
      (parse_epg (Some content) true w).1
      :: loop_results rest (parse_epg (Some content) true w).2
  end.

(** [c] returns [v] and leaves the world as it is but for the events
    [evs] added to the trace. *)
Definition runs {A} (c : M A) (v : A) (evs : list Event) : Prop :=
  forall w, c w = (v, mkWorld (epg_cache w) (next_oid w) (trace w ++ evs)).

(** No event of [evs] is a call of the markup reader. *)
Definition no_parse_call (evs : list Event) : Prop :=
  Forall (fun ev => is_parse_call ev = false) evs.

Definition quietly {A} (c : M A) (v : A) : Prop :=
  exists evs, runs c v evs /\ no_parse_call evs.

(** ** A reference instance of the collaborators *)

Module Reference.

Definition digit_value (c : ascii) : option nat :=
  let n := nat_of_ascii c in
  if (48 <=? n) && (n <=? 57) then Some (n - 48) else None.

(** Reads exactly [width] digits from the front of [s]. *)
Fixpoint digits (width : nat) (acc : nat) (s : string) : option (nat * string) :=
  match width with
  | 0 => Some (acc, s)
  | S w =>
      match s with
      | EmptyString => None
      | String c r =>
          match digit_value c with
          | Some d => digits w (10 * acc + d) r
          | None => None
          end
      end
  end.

Definition is_leap (y : nat) : bool :=
  ((y mod 4 =? 0) && negb (y mod 100 =? 0)) || (y mod 400 =? 0).

Definition days_in_month (y m : nat) : nat :=
  match m with
  | 2 => if is_leap y then 29 else 28
  | 4 | 6 | 9 | 11 => 30
  | _ => 31
  end.

Definition sign_value (c : ascii) : option Z :=
  if decide (c = "+"%char) then Some 1%Z
  else if decide (c = "-"%char) then Some (-1)%Z
  else None.

Definition in_range (dt : datetime) (oh om : nat) : bool :=
  (1 <=? year dt) && (1 <=? month dt) && (month dt <=? 12)
  && (1 <=? day dt) && (day dt <=? days_in_month (year dt) (month dt))
  && (hour dt <=? 23) && (minute dt <=? 59) && (second dt <=? 59)
  && (oh <=? 23) && (om <=? 59).

(** Modelled from the spec: [datetime.strptime] belongs to the standard
    library, not to the repository.  This reader accepts the canonical
    grammar of the design document, [YYYYMMDDHHMMSS±HHMM] with the offset
    required: fourteen digits, a sign, four digits, every field within its
    calendar range. *)
Definition strptime (s : string) : option datetime :=
  '(Y, s) ← digits 4 0 s;
  '(m, s) ← digits 2 0 s;
  '(d, s) ← digits 2 0 s;
  '(H, s) ← digits 2 0 s;
  '(Mi, s) ← digits 2 0 s;
  '(Se, s) ← digits 2 0 s;
  match s with
  | String c s =>
      sg ← sign_value c;
      '(oh, s) ← digits 2 0 s;
      '(om, s) ← digits 2 0 s;
      match s with
      | EmptyString =>
          let dt :=
            mkDatetime Y m d H Mi Se
              (sg * (Z.of_nat oh * 3600 + Z.of_nat om * 60))%Z in
          if in_range dt oh om then Some dt else None
      | String _ _ => None
      end
  | EmptyString => None
  end.

(** A markup reader given by a finite table of documents: a text that is
    not in the table is not well-formed. *)
Definition table_reader (table : list (string * Element)) (s : string) : option Element :=
  Dict.get s table.

(** Sample documents. *)
Definition programme_element (channel start stop title : string) : Element :=
  mkElement "programme" [("start", start); ("stop", stop); ("channel", channel)] None
    [mkElement "title" [("lang", "zh")] (Some title) []].

Definition channel_element (id name : string) : Element :=
  mkElement "channel" [("id", id)] None [mkElement "display-name" [] (Some name) []].

Definition source_A_text : string :=
  "<tv><channel id='ch1'><display-name>A Name</display-name></channel><programme start='20240101060000 +0000' stop='20240101070000 +0000' channel='ch1'><title lang='zh'>Morning</title></programme></tv>".

Definition source_A : Element :=
  mkElement "tv" [] None
    [channel_element "ch1" "A Name";
     programme_element "ch1" "20240101060000 +0000" "20240101070000 +0000" "Morning"].

Definition source_B_text : string :=
  "<tv><channel id='ch1'><display-name>B Name</display-name></channel><programme start='20240101070000 +0000' stop='20240101080000 +0000' channel='ch1'><title lang='zh'>News</title></programme></tv>".

Definition source_B : Element :=
  mkElement "tv" [] None
    [channel_element "ch1" "B Name";
     programme_element "ch1" "20240101070000 +0000" "20240101080000 +0000" "News"].

(** Programmes only, no channel element. *)
Definition source_C_text : string :=
  "<tv><programme start='20240101060000+0900' stop='20240101070000+0900' channel='c1'><title lang='zh'>Late</title></programme></tv>".

Definition source_C : Element :=
  mkElement "tv" [] None
    [programme_element "c1" "20240101060000+0900" "20240101070000+0900" "Late"].

(** A channel [c1] and a programme of a channel [c2] that is not listed;
    one programme whose start is too short, one without a title. *)
Definition source_D_text : string :=
  "<tv><channel id='c1'><display-name>One</display-name></channel><programme start='20240101' stop='20240101070000+0800' channel='c1'><title lang='zh'>Short</title></programme><programme start='20240101060000-0500' stop='20240101070000-0500' channel='c2'><title lang='zh'>Other</title></programme><programme start='20240101080000+0800' stop='20240101090000+0800' channel='c1'/></tv>".

Definition source_D : Element :=
  mkElement "tv" [] None
    [channel_element "c1" "One";
     programme_element "c1" "20240101" "20240101070000+0800" "Short";
     programme_element "c2" "20240101060000-0500" "20240101070000-0500" "Other";
     mkElement "programme"
       [("start", "20240101080000+0800"); ("stop", "20240101090000+0800"); ("channel", "c1")]
       None []].

(** A channel [c1] and one programme, of a channel [c2] that no channel
    element lists. *)
Definition source_E_text : string :=
  "<tv><channel id='c1'><display-name>One</display-name></channel><programme start='20240101060000-0500' stop='20240101070000-0500' channel='c2'><title lang='zh'>Other</title></programme></tv>".

Definition source_E : Element :=
  mkElement "tv" [] None
    [channel_element "c1" "One";
     programme_element "c2" "20240101060000-0500" "20240101070000-0500" "Other"].

(** Not well-formed: the root is never closed. *)
Definition malformed_text : string := "<tv><channel id='c1'>".

Definition sample_table : list (string * Element) :=
  [(source_A_text, source_A); (source_B_text, source_B);
   (source_C_text, source_C); (source_D_text, source_D);
   (source_E_text, source_E)].

(** A converter that leaves its input as it is (as OpenCC does for text
    without traditional characters), the text itself as its fingerprint,
    the table above as the markup reader. *)
Definition collaborators : Collaborators :=
  Build_Collaborators Some (fun s => s) (table_reader sample_table) strptime.

End Reference.


(** ** The list of sources *)

Module Config.

(** What reading [config.txt] gives: the lines the iteration over the file
    yields, and whether it then raises (a file that cannot be opened yields
    no line and raises). *)
Record FileRead : Type :=
  mkFileRead { lines : list string; raises : bool }.

Inductive Report : Type :=
| NoConfigFile
| ReadError.

(** The body of [for line in file]. *)
Definition keep_line (urls : list string) (line : string) : list string :=
  let line := PyStr.strip line in
  if PyStr.truthy (Some line) && negb (String.prefix "#" line)
  then urls ++ [line]
  else urls.

(** [get_urls]; [None] when [config.txt] does not exist.  The locators and
    what is printed. *)
Definition get_urls (config : option FileRead) : list string * list Report :=
  match config with
  | None => ([], [NoConfigFile])
  | Some file =>
      (fold_left keep_line (lines file) [],
       if raises file then [ReadError] else [])
  end.

End Config.

(** ** Further notions for the properties of the run *)

Section RunNotions.
Context `{Collaborators}.

(** The display name [parse_epg] stores for a channel element. *)
Definition display_name_of (channel : Element) : option string :=
  normalize
    (match ET.find channel "display-name" with
     | Some elem => text elem
     | None => Some ""
     end).

(** The channel elements whose normalized id is [k]. *)
Definition channels_named (k : string) (es : list Element) : list Element :=
  filter (fun e => normalize (ET.get e "id") = Some k) es.

(** The children of the element built for the programme element
    [programme] with the title text [title_text]. *)
Definition programme_children (programme : Element) (title_text : string) : list Element :=
  mkElement "title" [] (normalize (Some title_text)) []
  :: match ET.find programme "desc" with
     | Some (mkElement _ _ (Some desc_text) _) =>
         [mkElement "desc" [] (normalize (Some desc_text)) []]
     | _ => []
     end.

End RunNotions.

(** The calls of the markup reader on the text [content] a world records. *)
Definition is_read_of (content : string) (ev : Event) : bool :=
  match ev with
  | Called_fromstring c => bool_decide (c = content)
  | _ => false
  end.

Definition reads_of (content : string) (w : World) : nat :=
  length (List.filter (is_read_of content) (trace w)).

(** Every programme element stored in [d] has the tag [programme]. *)
Definition all_tagged (d : Dict.t (list Element)) : Prop :=
  Forall (fun kv => Forall (fun p => tag p = "programme") kv.2) d.



(** ** More sample documents *)

Module Samples.

(** The channel [c1] listed twice, a channel without display name, a
    channel element without id, a channel whose display name is empty;
    three programmes, with whitespace inside timestamps, a description, an
    empty description and a child the parser does not know. *)
Definition source_F_text : string :=
  "<tv><channel id='c1'><display-name>Old</display-name></channel><channel id='c2'/><channel><display-name>Nameless</display-name></channel><channel id='c1'><display-name>New</display-name></channel><channel id='c3'><display-name/></channel><programme start='2024 0101 060000 +0800' stop='20240101070000 +0800' channel='c1'><title>First</title><desc>About</desc><category>News</category></programme><programme start='20240101060000+0800' stop='20240101070000+0800' channel='c2'><title>Other</title><desc/></programme><programme start='20240101070000+0800' stop='20240101080000+0800' channel='c1'><title lang='zh'>Second</title></programme></tv>".

Definition programme_F1 : Element :=
  mkElement "programme"
    [("start", "2024 0101 060000 +0800"); ("stop", "20240101070000 +0800");
     ("channel", "c1")] None
    [mkElement "title" [] (Some "First") [];
     mkElement "desc" [] (Some "About") [];
     mkElement "category" [] (Some "News") []].

Definition programme_F2 : Element :=
  mkElement "programme"
    [("start", "20240101060000+0800"); ("stop", "20240101070000+0800");
     ("channel", "c2")] None
    [mkElement "title" [] (Some "Other") []; mkElement "desc" [] None []].

Definition programme_F3 : Element :=
  Reference.programme_element "c1" "20240101070000+0800" "20240101080000+0800" "Second".

Definition source_F : Element :=
  mkElement "tv" [] None
    [Reference.channel_element "c1" "Old";
     mkElement "channel" [("id", "c2")] None [];
     mkElement "channel" [] None [mkElement "display-name" [] (Some "Nameless") []];
     Reference.channel_element "c1" "New";
     mkElement "channel" [("id", "c3")] None [mkElement "display-name" [] None []];
     programme_F1; programme_F2; programme_F3].

Definition table : list (string * Element) :=
  (source_F_text, source_F) :: Reference.sample_table.

Definition collaborators : Collaborators :=
  Build_Collaborators Some (fun s => s) (Reference.table_reader table)
    Reference.strptime.

End Samples.


(** * Properties *)

(** ** Strings *)



Lemma lstrip_cases (s : string) :
  PyStr.lstrip s = ""
  \/ exists c r, PyStr.lstrip s = String c r /\ PyStr.isspace c = false.
Proof.
  induction s as [|c s IH]; simpl; [by left|].
  destruct (PyStr.isspace c) eqn:Hc; [exact IH|].
  right. by exists c, s.
Qed.




Lemma remove_whitespace_no_space (s : string) :
  forall c, In c (list_ascii_of_string (PyStr.remove_whitespace s)) ->
            PyStr.isspace c = false.
Proof.
  induction s as [|a s IH]; simpl; [done|].
  destruct (PyStr.isspace a) eqn:Ha; simpl; [exact IH|].
  intros c [<-|Hc]; auto.
Qed.

(** ** Dictionaries *)

Module DictFacts.

Section Facts.
Context {V : Type}.
Implicit Types (d : Dict.t V) (k : string) (v : V).

Lemma get_set_eq k v d : Dict.get k (Dict.set k v d) = Some v.
Proof.
  induction d as [|[k' v'] d IH]; simpl.
  - by rewrite decide_True.
  - destruct (decide (k' = k)) as [->|Hne]; simpl.
    + by rewrite decide_True.
    + by rewrite decide_False.
Qed.

Lemma get_set_ne k k' v d : k <> k' -> Dict.get k' (Dict.set k v d) = Dict.get k' d.
Proof.
  intros Hne. induction d as [|[k0 v0] d IH]; simpl.
  - by rewrite decide_False.
  - destruct (decide (k0 = k)) as [->|Hne0]; simpl.
    + by rewrite !decide_False.
    + destruct (decide (k0 = k')); [done|exact IH].
Qed.

Lemma get_None_keys k d : Dict.get k d = None <-> k ∉ Dict.keys d.
Proof.
  unfold Dict.keys. induction d as [|[k0 v0] d IH]; simpl.
  - split; [intros _; apply not_elem_of_nil|done].
  - rewrite not_elem_of_cons. destruct (decide (k0 = k)) as [->|Hne].
    + split; [done|]. by intros [? _].
    + rewrite IH. split; [by intros; split|by intros [_ ?]].
Qed.

Lemma keys_set k v d k' :
  k' ∈ Dict.keys (Dict.set k v d) <-> k' = k \/ k' ∈ Dict.keys d.
Proof.
  unfold Dict.keys. induction d as [|[k0 v0] d IH]; simpl.
  - rewrite list_elem_of_singleton. split; [by left|]. intros [?|Hn]; [done|].
    by apply not_elem_of_nil in Hn.
  - destruct (decide (k0 = k)) as [->|Hne]; simpl.
    + rewrite !elem_of_cons. tauto.
    + rewrite !elem_of_cons, IH. tauto.
Qed.

Lemma wf_set k v d : NoDup (Dict.keys d) -> NoDup (Dict.keys (Dict.set k v d)).
Proof.
  unfold Dict.keys. induction d as [|[k0 v0] d IH]; simpl.
  - intros _. apply NoDup_singleton.
  - rewrite NoDup_cons. intros [Hk0 Hd].
    destruct (decide (k0 = k)) as [->|Hne]; simpl.
    + by apply NoDup_cons.
    + apply NoDup_cons. split; [|by apply IH].
      intros Hin. apply (keys_set k v d k0) in Hin as [?|?]; done.
Qed.

(** [update] lets the bindings of the argument win. *)
Lemma get_update k d other :
  NoDup (Dict.keys other) ->
  Dict.get k (Dict.update d other)
  = match Dict.get k other with
    | Some v => Some v
    | None => Dict.get k d
    end.
Proof.
  unfold Dict.update. revert d.
  induction other as [|[k0 v0] other IH]; intros d Hnd; simpl; [done|].
  apply NoDup_cons in Hnd as [Hk0 Hnd]. rewrite (IH _ Hnd). simpl.
  destruct (decide (k0 = k)) as [->|Hne].
  - apply (get_None_keys k other) in Hk0. rewrite Hk0. apply get_set_eq.
  - destruct (Dict.get k other); [done|]. by apply get_set_ne.
Qed.

Lemma wf_update d other :
  NoDup (Dict.keys d) -> NoDup (Dict.keys (Dict.update d other)).
Proof.
  unfold Dict.update. revert d.
  induction other as [|[k0 v0] other IH]; intros d Hd; simpl; [done|].
  apply IH. by apply wf_set.
Qed.

End Facts.

Section ListFacts.
Context {A : Type}.
Implicit Types (d : Dict.t (list A)) (k : string).

Lemma getlist_extend_eq k xs d :
  Dict.getlist k (Dict.extend k xs d) = Dict.getlist k d ++ xs.
Proof. unfold Dict.extend. unfold Dict.getlist at 1. by rewrite get_set_eq. Qed.

Lemma getlist_extend_ne k k' xs d :
  k <> k' -> Dict.getlist k' (Dict.extend k xs d) = Dict.getlist k' d.
Proof. intros Hne. unfold Dict.extend, Dict.getlist. by rewrite get_set_ne. Qed.

Lemma getlist_append k k' x d :
  Dict.getlist k' (Dict.append k x d)
  = Dict.getlist k' d ++ (if decide (k = k') then [x] else []).
Proof.
  unfold Dict.append. destruct (decide (k = k')) as [->|Hne].
  - unfold Dict.getlist at 1. by rewrite get_set_eq.
  - unfold Dict.getlist at 1 3. rewrite get_set_ne by done. by rewrite app_nil_r.
Qed.

Lemma getlist_not_key k d : k ∉ Dict.keys d -> Dict.getlist k d = [].
Proof. intros Hk. apply get_None_keys in Hk. unfold Dict.getlist. by rewrite Hk. Qed.

End ListFacts.

End DictFacts.

(** ** Runs of the monadic code *)

Section Runs.
Context `{Collaborators}.

Lemma runs_ret {A} (a : A) : runs (ret a) a [].
Proof. intros [c n t]. unfold ret. simpl. by rewrite app_nil_r. Qed.

Lemma runs_emit (ev : Event) : runs (emit ev) tt [ev].
Proof. by intros w. Qed.

Lemma runs_bind {A B} (c : M A) (k : A -> M B) a e1 b e2 :
  runs c a e1 -> runs (k a) b e2 -> runs (bind c k) b (e1 ++ e2).
Proof.
  intros Hc Hk w. unfold bind. rewrite Hc, Hk. simpl. by rewrite app_assoc.
Qed.

Lemma quietly_ret {A} (a : A) : quietly (ret a) a.
Proof. exists []. split; [apply runs_ret|constructor]. Qed.

Lemma quietly_print (m : Msg) : quietly (print m) tt.
Proof. exists [Printed m]. split; [apply runs_emit|by repeat constructor]. Qed.

Lemma quietly_bind {A B} (c : M A) (k : A -> M B) a b :
  quietly c a -> quietly (k a) b -> quietly (bind c k) b.
Proof.
  intros (e1 & Hc & H1) (e2 & Hk & H2). exists (e1 ++ e2).
  split; [by eapply runs_bind|by apply Forall_app].
Qed.

Lemma transform2_run (s : option string) :
  runs (transform2_zh_hans s) (normalize s) (transform2_events s).
Proof.
  destruct s as [str|]; simpl; [|apply runs_ret].
  destruct (cc_convert str) as [converted|]; simpl.
  - apply (runs_bind _ _ tt [_] _ []); [apply runs_emit|apply runs_ret].
  - apply (runs_bind _ _ tt [_] _ [_]); [apply runs_emit|].
    apply (runs_bind _ _ tt [_] _ []); [apply runs_emit|apply runs_ret].
Qed.

Lemma quietly_transform2 (s : option string) :
  quietly (transform2_zh_hans s) (normalize s).
Proof.
  exists (transform2_events s). split; [apply transform2_run|].
  destruct s as [str|]; simpl; [|constructor].
  destruct (cc_convert str); by repeat constructor.
Qed.

Lemma channel_body_run (channel : Element) (channels : Dict.t (option string)) :
  quietly (channel_body channel channels) (channel_step channels channel).
Proof.
  unfold channel_body, channel_step.
  eapply quietly_bind; [apply quietly_transform2|].
  destruct (normalize (ET.get channel "id")) as [[|c id]|]; try apply quietly_ret.
  eapply quietly_bind; [apply quietly_transform2|apply quietly_ret].
Qed.

Lemma programme_body_run (programme : Element) (programmes : Dict.t (list Element)) :
  quietly (programme_body programme programmes) (programme_step programmes programme).
Proof.
  unfold programme_body, programme_step, filed_as.
  eapply quietly_bind; [apply quietly_transform2|].
  destruct (normalize (ET.get programme "channel")) as [[|c id]|];
    try apply quietly_ret.
  destruct (ET.get programme "start") as [[|c1 start]|]; try apply quietly_ret.
  destruct (ET.get programme "stop") as [[|c2 stop]|]; try apply quietly_ret.
  destruct (strptime _) as [channel_start|];
    [|eapply quietly_bind; [apply quietly_print|apply quietly_ret]].
  destruct (strptime _) as [channel_stop|];
    [|eapply quietly_bind; [apply quietly_print|apply quietly_ret]].
  destruct (ET.find programme "title") as [[t a [title_text|] cs]|];
    try apply quietly_ret.
  eapply quietly_bind; [apply quietly_transform2|].
  unfold with_desc.
  destruct (ET.find programme "desc") as [[t' a' [desc_text|] cs']|].
  - eapply quietly_bind; [|apply quietly_ret].
    eapply quietly_bind; [apply quietly_transform2|apply quietly_ret].
  - eapply quietly_bind; apply quietly_ret.
  - eapply quietly_bind; apply quietly_ret.
Qed.

Lemma for_each_run {A S} (body : A -> S -> M S) (step : S -> A -> S) :
  (forall x acc, quietly (body x acc) (step acc x)) ->
  forall xs acc, quietly (for_each xs body acc) (fold_left step xs acc).
Proof.
  intros Hbody xs. induction xs as [|x xs IH]; intros acc; simpl.
  - apply quietly_ret.
  - eapply quietly_bind; [apply Hbody|apply IH].
Qed.

End Runs.

(** ** The cases of [parse_epg] *)

Section ParseCases.
Context `{Collaborators}.

Lemma return_empty_run (w : World) :
  return_empty w
  = (mkParseResult (next_oid w) (S (next_oid w)) [] [],
     mkWorld (epg_cache w) (S (S (next_oid w))) (trace w)).
Proof. reflexivity. Qed.

Lemma parse_uncached_wellformed (content : string) (use_cache : bool)
    (root : Element) (w : World) :
  fromstring content = Some root ->
  exists evs, no_parse_call evs /\
    let r := mkParseResult (next_oid w) (S (next_oid w))
               (document_channels root) (document_programmes root) in
    parse_uncached content use_cache w
    = (r,
       mkWorld
         (if use_cache then <[get_content_hash content := r]> (epg_cache w)
          else epg_cache w)
         (S (S (next_oid w)))
         (trace w ++ Called_fromstring content :: evs
            ++ (if use_cache then [Printed MsgCached] else []))).
Proof.
  intros Hroot.
  destruct (for_each_run _ _ channel_body_run (ET.findall root "channel") [])
    as (e1 & Hr1 & Hq1).
  destruct (for_each_run _ _ programme_body_run (ET.findall root "programme") [])
    as (e2 & Hr2 & Hq2).
  exists (e1 ++ e2). split; [by apply Forall_app|].
  unfold parse_uncached, bind. simpl. rewrite Hroot, Hr1, Hr2. simpl.
  fold (document_channels root). fold (document_programmes root).
  destruct use_cache; simpl; do 2 f_equal;
    rewrite <- !app_assoc; simpl; by rewrite <- ?app_assoc, ?app_nil_r.
Qed.

Lemma parse_uncached_malformed (content : string) (use_cache : bool) (w : World) :
  fromstring content = None ->
  parse_uncached content use_cache w
  = (mkParseResult (2 + next_oid w) (3 + next_oid w) [] [],
     mkWorld (epg_cache w) (4 + next_oid w)
       (trace w ++ [Called_fromstring content; Printed MsgXmlError;
                    Printed (MsgProblematicContent (PyStr.prefix 500 content))])).
Proof.
  intros Hroot. unfold parse_uncached, bind. simpl. rewrite Hroot. simpl.
  by rewrite <- !app_assoc.
Qed.

Lemma parse_epg_blank (epg_content : option string) (use_cache : bool) (w : World) :
  match epg_content with
  | None => True
  | Some content => PyStr.strip content = ""
  end ->
  parse_epg epg_content use_cache w
  = (mkParseResult (next_oid w) (S (next_oid w)) [] [],
     mkWorld (epg_cache w) (S (S (next_oid w))) (trace w ++ [Printed MsgEmptyContent])).
Proof.
  destruct epg_content as [content|]; simpl; [|done].
  intros Hb. by rewrite decide_True.
Qed.

Lemma parse_epg_hit (content : string) (r : ParseResult) (w : World) :
  PyStr.strip content <> "" ->
  epg_cache w !! get_content_hash content = Some r ->
  parse_epg (Some content) true w
  = (r, mkWorld (epg_cache w) (next_oid w) (trace w ++ [Printed MsgCacheHit])).
Proof.
  intros Hb Hc. unfold parse_epg. rewrite decide_False by done.
  unfold bind, cache_lookup. by rewrite Hc.
Qed.

Lemma parse_epg_miss (content : string) (use_cache : bool) (w : World) :
  PyStr.strip content <> "" ->
  (if use_cache then epg_cache w !! get_content_hash content else None) = None ->
  parse_epg (Some content) use_cache w = parse_uncached content use_cache w.
Proof.
  intros Hb Hc. unfold parse_epg. rewrite decide_False by done.
  unfold bind, cache_lookup. by rewrite Hc.
Qed.

(** What [parse_epg] returns for a document that is not blank, when the
    cache agrees with it. *)
Lemma parse_epg_value (content : string) (use_cache : bool) (w : World) :
  PyStr.strip content <> "" ->
  (use_cache = true -> cache_agrees content w) ->
  let r := (parse_epg (Some content) use_cache w).1 in
  match fromstring content with
  | Some root =>
      channels r = document_channels root /\ programmes r = document_programmes root
  | None => channels r = [] /\ programmes r = []
  end.
Proof.
  intros Hb Hag.
  destruct (if use_cache then epg_cache w !! get_content_hash content else None)
    as [r0|] eqn:Hc.
  - destruct use_cache; [|done].
    cbv zeta. rewrite (parse_epg_hit _ _ _ Hb Hc). simpl.
    destruct (Hag eq_refl _ Hc) as (w0 & [root Hroot] & ->). rewrite Hroot.
    destruct (parse_uncached_wellformed content true root w0 Hroot)
      as (evs & _ & ->). done.
  - cbv zeta. rewrite (parse_epg_miss _ _ _ Hb Hc).
    destruct (fromstring content) as [root|] eqn:Hroot.
    + destruct (parse_uncached_wellformed content use_cache root w Hroot)
        as (evs & _ & ->). done.
    + by rewrite parse_uncached_malformed.
Qed.

Lemma cache_agrees_initial (content : string) : cache_agrees content initial_world.
Proof. intros r Hr. simpl in Hr. by rewrite lookup_empty in Hr. Qed.

Lemma cache_sound_initial : cache_sound initial_world.
Proof. intros h r Hr. simpl in Hr. by rewrite lookup_empty in Hr. Qed.

(** The cache of the world after a call of [parse_epg]. *)
Lemma parse_epg_cache (epg_content : option string) (use_cache : bool) (w : World) :
  epg_cache (parse_epg epg_content use_cache w).2 = epg_cache w
  \/ exists content root,
       epg_content = Some content /\ fromstring content = Some root
       /\ use_cache = true
       /\ epg_cache w !! get_content_hash content = None
       /\ (parse_epg epg_content use_cache w).1 = (parse_uncached content true w).1
       /\ epg_cache (parse_epg epg_content use_cache w).2
          = <[get_content_hash content := (parse_epg epg_content use_cache w).1]>
              (epg_cache w).
Proof.
  destruct epg_content as [content|]; [|by left].
  destruct (decide (PyStr.strip content = "")) as [Hb|Hb].
  { left. by rewrite parse_epg_blank. }
  destruct (if use_cache then epg_cache w !! get_content_hash content else None)
    as [r0|] eqn:Hc.
  { destruct use_cache; [|done]. left. by rewrite (parse_epg_hit _ _ _ Hb Hc). }
  rewrite (parse_epg_miss _ _ _ Hb Hc).
  destruct (fromstring content) as [root|] eqn:Hroot.
  - destruct (parse_uncached_wellformed content use_cache root w Hroot)
      as (evs & _ & Hrun).
    destruct use_cache; [|left; by rewrite Hrun].
    right. exists content, root. by rewrite Hrun.
  - left. by rewrite parse_uncached_malformed.
Qed.

(** A call on one document keeps the cache in agreement with another,
    unless their fingerprints collide. *)
Lemma cache_agrees_preserved (content other : string) (use_cache : bool) (w : World) :
  (get_content_hash other = get_content_hash content -> other = content) ->
  cache_agrees content w ->
  cache_agrees content (parse_epg (Some other) use_cache w).2.
Proof.
  intros Hinj Hag. unfold cache_agrees.
  destruct (parse_epg_cache (Some other) use_cache w)
    as [->|(c & root & [= <-] & Hroot & -> & Hnone & Hr & ->)]; [done|].
  intros r. destruct (decide (get_content_hash other = get_content_hash content))
    as [Heq|Hne].
  - rewrite Heq, lookup_insert_eq. intros Hr'. apply (inj Some) in Hr'. subst r.
    rewrite (Hinj Heq) in *. exists w. split; [by exists root|done].
  - rewrite lookup_insert_ne by done. apply Hag.
Qed.

Lemma cache_sound_preserved (epg_content : option string) (use_cache : bool) (w : World) :
  cache_sound w -> cache_sound (parse_epg epg_content use_cache w).2.
Proof.
  intros Hs. unfold cache_sound.
  destruct (parse_epg_cache epg_content use_cache w)
    as [->|(c & root & -> & Hroot & -> & Hnone & Hr & ->)]; [done|].
  intros h r. destruct (decide (get_content_hash c = h)) as [<-|Hne].
  - rewrite lookup_insert_eq. intros Heq. apply (inj Some) in Heq. subst r. exists root. rewrite Hr.
    destruct (parse_uncached_wellformed c true root w Hroot) as (evs & _ & ->).
    done.
  - rewrite lookup_insert_ne by done. apply Hs.
Qed.

End ParseCases.

(** ** What a document contributes *)

Section Documents.
Context `{Collaborators}.


Lemma attrib_with_desc (programme q : Element) :
  attrib (with_desc programme q) = attrib q /\ tag (with_desc programme q) = tag q.
Proof.
  unfold with_desc.
  by destruct (ET.find programme "desc") as [[t a [desc_text|] cs]|].
Qed.

(** [filed_as] spelled out. *)
Lemma filed_as_Some (programme : Element) (k : string) (p : Element) :
  filed_as programme = Some (k, p) <->
  k <> "" /\ normalize (ET.get programme "channel") = Some k
  /\ exists channel_start channel_stop title_text,
       timestamp_parses programme "start" channel_start
       /\ timestamp_parses programme "stop" channel_stop
       /\ has_title programme title_text
       /\ p = with_desc programme
                (new_programme k channel_start channel_stop
                   (normalize (Some title_text))).
Proof.
  unfold filed_as, timestamp_parses, has_title. split.
  - destruct (normalize (ET.get programme "channel")) as [[|c id]|]; try done.
    destruct (ET.get programme "start") as [[|c1 start]|]; try done.
    destruct (ET.get programme "stop") as [[|c2 stop]|]; try done.
    destruct (strptime (PyStr.remove_whitespace (String c1 start)))
      as [channel_start|] eqn:Hstart; try done.
    destruct (strptime (PyStr.remove_whitespace (String c2 stop)))
      as [channel_stop|] eqn:Hstop; try done.
    destruct (ET.find programme "title") as [[t a [title_text|] cs]|]; try done.
    intros Heq. apply (inj Some) in Heq. apply pair_eq in Heq as [<- <-].
    split; [done|]. split; [done|].
    exists channel_start, channel_stop, title_text.
    split; [by eexists|]. split; [by eexists|]. split; [by eexists|done].
  - intros (Hk & -> & ds & dt & txt & (s & -> & Hs & Hds) & (t & -> & Ht & Hdt)
            & (te & -> & Hte) & ->).
    destruct k as [|c k]; [done|].
    destruct s as [|c1 s]; [done|]. destruct t as [|c2 t]; [done|].
    rewrite Hds, Hdt. destruct te as [tg a tx cs]. simpl in Hte. by rewrite Hte.
Qed.


Lemma getlist_programme_step (k : string) (es : list Element) (d : Dict.t (list Element)) :
  Dict.getlist k (fold_left programme_step es d)
  = Dict.getlist k d ++ filed_under k es.
Proof.
  revert d. induction es as [|e es IH]; intros d; simpl.
  - by rewrite app_nil_r.
  - rewrite IH. unfold programme_step, filed_under. simpl.
    destruct (filed_as e) as [[k' p]|]; [|done].
    rewrite DictFacts.getlist_append. rewrite <- app_assoc.
    by destruct (decide (k' = k)).
Qed.

Lemma elem_of_filed_under (k : string) (es : list Element) (p : Element) :
  p ∈ filed_under k es <-> exists e, e ∈ es /\ filed_as e = Some (k, p).
Proof.
  unfold filed_under. rewrite list_elem_of_omap. split.
  - intros (e & He & Hp). exists e. split; [done|].
    destruct (filed_as e) as [[k' q]|]; [|done].
    destruct (decide (k' = k)) as [->|]; [|done]. by injection Hp as ->.
  - intros (e & He & Ha). exists e. split; [done|].
    rewrite Ha. by rewrite decide_True.
Qed.



Lemma wf_channel_step (es : list Element) (d : Dict.t (option string)) :
  NoDup (Dict.keys d) -> NoDup (Dict.keys (fold_left channel_step es d)).
Proof.
  revert d. induction es as [|e es IH]; intros d Hd; simpl; [done|].
  apply IH. unfold channel_step.
  destruct (normalize (ET.get e "id")) as [[|c id]|]; try done.
  by apply DictFacts.wf_set.
Qed.

Lemma wf_programme_step (es : list Element) (d : Dict.t (list Element)) :
  NoDup (Dict.keys d) -> NoDup (Dict.keys (fold_left programme_step es d)).
Proof.
  revert d. induction es as [|e es IH]; intros d Hd; simpl; [done|].
  apply IH. unfold programme_step.
  destruct (filed_as e) as [[k p]|]; [|done]. by apply DictFacts.wf_set.
Qed.




End Documents.

(** ** The Guide Parser *)

Lemma string_app_assoc (a b c : string) : (a +:+ b) +:+ c = a +:+ (b +:+ c).
Proof.
  induction a as [|x a IH]; [done|].
  change (String x ((a +:+ b) +:+ c) = String x (a +:+ (b +:+ c))).
  by rewrite IH.
Qed.

(** The format of the output is the wall-clock digits and a literal. *)
Lemma strftime_output_format (dt : datetime) :
  Strftime.strftime output_format dt = Strftime.wall_clock dt +:+ " +0800".
Proof.
  unfold Strftime.wall_clock. rewrite !string_app_assoc. reflexivity.
Qed.

Section GuideParser.
Context `{Collaborators}.

Lemma elem_of_document_programmes (root : Element) (k : string) (p : Element) :
  p ∈ Dict.getlist k (document_programmes root)
  <-> exists e, e ∈ ET.findall root "programme" /\ filed_as e = Some (k, p).
Proof.
  unfold document_programmes. rewrite getlist_programme_step. simpl.
  apply elem_of_filed_under.
Qed.

Lemma filed_attrib (programme : Element) (k : string) (p : Element) :
  filed_as programme = Some (k, p) ->
  exists channel_start channel_stop,
    timestamp_parses programme "start" channel_start
    /\ timestamp_parses programme "stop" channel_stop
    /\ tag p = "programme"
    /\ attrib p = [("channel", k);
                   ("start", Strftime.strftime output_format channel_start);
                   ("stop", Strftime.strftime output_format channel_stop)].
Proof.
  intros Ha. apply filed_as_Some in Ha as (_ & _ & ds & dt & txt & Hds & Hdt & _ & ->).
  exists ds, dt. split; [done|]. split; [done|].
  destruct (attrib_with_desc programme
              (new_programme k ds dt (normalize (Some txt)))) as [-> ->].
  done.
Qed.


(** Where the programmes [parse_epg] returns come from. *)
Lemma parse_epg_programme_origin (epg_content : option string) (use_cache : bool)
    (w : World) (k : string) (p : Element) :
  (forall content,
     epg_content = Some content -> use_cache = true -> cache_agrees content w) ->
  p ∈ Dict.getlist k (programmes (parse_epg epg_content use_cache w).1) ->
  exists content root programme,
    epg_content = Some content /\ fromstring content = Some root
    /\ programme ∈ ET.findall root "programme"
    /\ filed_as programme = Some (k, p).
Proof.
  intros Hag Hp.
  destruct epg_content as [content|];
    [|rewrite parse_epg_blank in Hp by done; by apply not_elem_of_nil in Hp].
  destruct (decide (PyStr.strip content = "")) as [Hb|Hb];
    [rewrite parse_epg_blank in Hp by done; by apply not_elem_of_nil in Hp|].
  pose proof (parse_epg_value content use_cache w Hb (Hag _ eq_refl)) as Hv.
  cbv zeta in Hv. destruct (fromstring content) as [root|] eqn:Hroot.
  - destruct Hv as [_ Hv]. rewrite Hv in Hp.
    apply elem_of_document_programmes in Hp as (e & He & Ha).
    by exists content, root, e.
  - destruct Hv as [_ Hv]. rewrite Hv in Hp. by apply not_elem_of_nil in Hp.
Qed.

Lemma elem_of_keys_getlist {A} (k : string) (d : Dict.t (list A)) (x : A) :
  x ∈ Dict.getlist k d -> k ∈ Dict.keys d.
Proof.
  intros Hx. destruct (decide (k ∈ Dict.keys d)) as [|Hk]; [done|].
  rewrite (DictFacts.getlist_not_key k d Hk) in Hx. by apply not_elem_of_nil in Hx.
Qed.

End GuideParser.








(** A programme broadcast at 06:00 in the zone [+0900] is written as
    06:00 in the zone [+0800]. *)
Example source_C_start :
  (fun r => (fun p => ET.get p "start") <$> Dict.getlist "c1" (programmes r))
    (parse_epg (H := Reference.collaborators)
       (Some Reference.source_C_text) true initial_world).1
  = [Some "20240101060000 +0800"].
Proof. reflexivity. Qed.

(** ** The Content Cache *)

Section ContentCache.
Context `{Collaborators}.

Lemma no_parse_call_filter (evs : list Event) :
  no_parse_call evs -> List.filter is_parse_call evs = [].
Proof.
  induction 1 as [|ev evs Hev _ IH]; simpl; [done|]. by rewrite Hev.
Qed.

Lemma parse_count_app (w : World) (c : gmap string ParseResult) (n : nat)
    (evs : list Event) :
  parse_count (mkWorld c n (trace w ++ evs))
  = parse_count w + length (List.filter is_parse_call evs).
Proof. unfold parse_count. simpl. by rewrite List.filter_app, length_app. Qed.

Lemma convert_count_app (w : World) (c : gmap string ParseResult) (n : nat)
    (evs : list Event) :
  convert_count (mkWorld c n (trace w ++ evs))
  = convert_count w + length (List.filter is_convert_call evs).
Proof. unfold convert_count. simpl. by rewrite List.filter_app, length_app. Qed.

(** A miss on a well-formed document reads the markup once and stores what
    it returns. *)
Lemma parse_epg_miss_wellformed (content : string) (root : Element) (w : World) :
  PyStr.strip content <> "" ->
  fromstring content = Some root ->
  epg_cache w !! get_content_hash content = None ->
  let out := parse_epg (Some content) true w in
  parse_count out.2 = S (parse_count w)
  /\ epg_cache out.2 = <[get_content_hash content := out.1]> (epg_cache w)
  /\ channels out.1 = document_channels root
  /\ programmes out.1 = document_programmes root.
Proof.
  intros Hb Hroot Hmiss out. subst out.
  rewrite (parse_epg_miss content true w Hb Hmiss).
  destruct (parse_uncached_wellformed content true root w Hroot)
    as (evs & Hq & ->). simpl.
  split; [|done]. rewrite parse_count_app. simpl.
  rewrite List.filter_app, (no_parse_call_filter _ Hq). simpl. lia.
Qed.

End ContentCache.

(** C4, as the code has it. For a document that is not blank and that
    the markup reader accepts, a second call of [parse_epg] on the same
    text returns the very result of the first, objects included, adds
    nothing to the world but the message of the cache hit, and so calls
    neither the markup reader nor the script converter; when the first
    call was a miss, the markup reader was called once over the two
    calls. *)
Theorem parse_epg_second_call_hits `{Collaborators}
    (content : string) (root : Element) (w : World) :
  PyStr.strip content <> "" ->
  fromstring content = Some root ->
  let first := parse_epg (Some content) true w in
  let second := parse_epg (Some content) true first.2 in
  second.1 = first.1
  /\ second.2 = mkWorld (epg_cache first.2) (next_oid first.2)
                  (trace first.2 ++ [Printed MsgCacheHit])
  /\ parse_count second.2 = parse_count first.2
  /\ convert_count second.2 = convert_count first.2
  /\ (epg_cache w !! get_content_hash content = None ->
      parse_count second.2 = S (parse_count w)).
Proof.
  intros Hb Hroot first second.
  assert (Hhit : epg_cache first.2 !! get_content_hash content = Some first.1).
  { subst first.
    destruct (epg_cache w !! get_content_hash content) as [r0|] eqn:Hc.
    - by rewrite (parse_epg_hit _ _ _ Hb Hc).
    - destruct (parse_epg_miss_wellformed content root w Hb Hroot Hc)
        as (_ & -> & _). apply lookup_insert_eq. }
  assert (Hsecond : second
            = (first.1, mkWorld (epg_cache first.2) (next_oid first.2)
                          (trace first.2 ++ [Printed MsgCacheHit]))).
  { subst second. by rewrite (parse_epg_hit _ _ _ Hb Hhit). }
  assert (Hcount : parse_count second.2 = parse_count first.2).
  { rewrite Hsecond. simpl. rewrite parse_count_app. simpl. lia. }
  rewrite Hsecond at 1 2. simpl. do 3 (split; [done|]). split.
  - rewrite Hsecond. simpl. rewrite convert_count_app. simpl. lia.
  - intros Hc. rewrite Hcount. subst first.
    by destruct (parse_epg_miss_wellformed content root w Hb Hroot Hc) as [-> _].
Qed.

Lemma parse_epg_second_call_hits_witness :
  let first := parse_epg (H := Reference.collaborators)
                 (Some Reference.source_A_text) true initial_world in
  let second := parse_epg (H := Reference.collaborators)
                  (Some Reference.source_A_text) true first.2 in
  second.1 = first.1 /\ parse_count second.2 = 1.
Proof.
  intros first second.
  destruct (parse_epg_second_call_hits (H := Reference.collaborators)
              Reference.source_A_text Reference.source_A initial_world
              ltac:(discriminate) eq_refl) as (Hsame & _ & _ & _ & Hcount).
  split; [exact Hsame|]. exact (Hcount eq_refl).
Defined.

(** A malformed text is read again by the second call, which returns new
    objects; a blank text is never read and gets new objects at every
    call. *)
Lemma parse_epg_second_call_reparses :
  (let first := parse_epg (H := Reference.collaborators)
                  (Some Reference.malformed_text) true initial_world in
   let second := parse_epg (H := Reference.collaborators)
                   (Some Reference.malformed_text) true first.2 in
   parse_count second.2 = 2 /\ second.1 <> first.1)
  /\ (let first := parse_epg (H := Reference.collaborators)
                     (Some "   ") true initial_world in
      let second := parse_epg (H := Reference.collaborators)
                      (Some "   ") true first.2 in
      parse_count second.2 = 0 /\ second.1 <> first.1).
Proof. vm_compute. repeat split; discriminate. Qed.

(** C5, as the code has it. On a miss for a document that is not blank
    and that the markup reader accepts, [parse_epg] calls the reader once,
    stores the result under the fingerprint of the text and returns it; a
    text the reader rejects, and a blank text, leave the cache as it was. *)
Theorem parse_epg_stores_on_miss `{Collaborators}
    (content : string) (root : Element) (w : World) :
  PyStr.strip content <> "" ->
  fromstring content = Some root ->
  epg_cache w !! get_content_hash content = None ->
  let out := parse_epg (Some content) true w in
  parse_count out.2 = S (parse_count w)
  /\ epg_cache out.2 = <[get_content_hash content := out.1]> (epg_cache w)
  /\ epg_cache out.2 !! get_content_hash content = Some out.1
  /\ channels out.1 = document_channels root
  /\ programmes out.1 = document_programmes root.
Proof.
  intros Hb Hroot Hmiss out.
  destruct (parse_epg_miss_wellformed content root w Hb Hroot Hmiss)
    as (Hcount & Hcache & Hch & Hpr).
  fold out in Hcount, Hcache, Hch, Hpr.
  do 2 (split; [done|]). split; [|done]. rewrite Hcache. apply lookup_insert_eq.
Qed.

Lemma parse_epg_stores_on_miss_witness :
  let out := parse_epg (H := Reference.collaborators)
               (Some Reference.source_A_text) true initial_world in
  epg_cache out.2 !! Reference.source_A_text = Some out.1.
Proof.
  intros out.
  destruct (parse_epg_stores_on_miss (H := Reference.collaborators)
              Reference.source_A_text Reference.source_A initial_world
              ltac:(discriminate) eq_refl eq_refl) as (_ & _ & Hstored & _).
  exact Hstored.
Defined.

(** The first parse of a malformed document stores nothing. *)
Lemma parse_epg_malformed_not_stored :
  let out := parse_epg (H := Reference.collaborators)
               (Some Reference.malformed_text) true initial_world in
  epg_cache initial_world
    !! get_content_hash (H := Reference.collaborators) Reference.malformed_text = None
  /\ epg_cache out.2
       !! get_content_hash (H := Reference.collaborators) Reference.malformed_text = None
  /\ channels out.1 = [] /\ programmes out.1 = [].
Proof. vm_compute. done. Qed.

(** ** The Merge Engine *)

Lemma getlist_extend_all (k : string) (d o : Dict.t (list Element)) :
  NoDup (Dict.keys o) ->
  Dict.getlist k (extend_all d o) = Dict.getlist k d ++ Dict.getlist k o.
Proof.
  unfold extend_all. revert d.
  induction o as [|[k0 l0] o IH]; intros d Hnd; simpl.
  - by rewrite app_nil_r.
  - apply NoDup_cons in Hnd as [Hk0 Hnd]. rewrite (IH _ Hnd).
    unfold Dict.getlist at 4. simpl.
    destruct (decide (k0 = k)) as [->|Hne]; simpl.
    + rewrite DictFacts.getlist_extend_eq.
      rewrite (DictFacts.getlist_not_key k o Hk0). by rewrite app_nil_r.
    + by rewrite DictFacts.getlist_extend_ne.
Qed.

Lemma merge_one_channels (agg : Aggregate) (r : ParseResult) (k : string) :
  NoDup (Dict.keys (channels r)) ->
  Dict.get k (all_channels (merge_one agg r))
  = match Dict.get k (channels r) with
    | Some name => Some name
    | None => Dict.get k (all_channels agg)
    end.
Proof.
  intros Hnd. unfold merge_one.
  destruct (Dict.nonempty (channels r)) eqn:Hne; simpl.
  - by apply DictFacts.get_update.
  - by destruct (channels r).
Qed.

Lemma merge_one_programmes (agg : Aggregate) (r : ParseResult) (k : string) :
  NoDup (Dict.keys (programmes r)) ->
  Dict.getlist k (all_programmes (merge_one agg r))
  = Dict.getlist k (all_programmes agg)
    ++ (if Dict.nonempty (channels r) then Dict.getlist k (programmes r) else []).
Proof.
  intros Hnd. unfold merge_one.
  destruct (Dict.nonempty (channels r)); simpl.
  - by apply getlist_extend_all.
  - by rewrite app_nil_r.
Qed.

Lemma merge_from_channels (results : list ParseResult) (agg : Aggregate) (k : string) :
  Forall (fun r => NoDup (Dict.keys (channels r))) results ->
  Dict.get k (all_channels (fold_left merge_one results agg))
  = match last_defined k results with
    | Some name => Some name
    | None => Dict.get k (all_channels agg)
    end.
Proof.
  intros Hwf. revert agg.
  induction Hwf as [|r results Hr _ IH]; intros agg; simpl; [done|].
  rewrite IH. destruct (last_defined k results); [done|].
  by apply merge_one_channels.
Qed.

Lemma merge_from_programmes (results : list ParseResult) (agg : Aggregate) (k : string) :
  Forall (fun r => NoDup (Dict.keys (programmes r))) results ->
  Dict.getlist k (all_programmes (fold_left merge_one results agg))
  = Dict.getlist k (all_programmes agg) ++ contributions k (merged_sources results).
Proof.
  intros Hwf. revert agg. unfold contributions.
  induction Hwf as [|r results Hr _ IH]; intros agg; simpl.
  - by rewrite app_nil_r.
  - rewrite IH, (merge_one_programmes _ _ _ Hr), <- app_assoc.
    by destruct (Dict.nonempty (channels r)).
Qed.

(** C2, as the code has it. The programmes of the aggregate under a
    channel id are the programmes under that id of the sources that have
    at least one channel, one source after the other in the order of the
    sources, each source in its own order, nothing dropped and nothing
    merged; a source without any channel contributes nothing. *)
Theorem merge_programme_union (results : list ParseResult) (k : string) :
  Forall (fun r => NoDup (Dict.keys (programmes r))) results ->
  Dict.getlist k (all_programmes (merge results))
  = contributions k (merged_sources results).
Proof.
  intros Hwf. unfold merge. by rewrite merge_from_programmes.
Qed.

Lemma merge_programme_union_witness :
  let rA := (parse_epg (H := Reference.collaborators)
               (Some Reference.source_A_text) true initial_world).1 in
  let rB := (parse_epg (H := Reference.collaborators)
               (Some Reference.source_B_text) true initial_world).1 in
  Dict.getlist "ch1" (all_programmes (merge [rA; rB]))
  = Dict.getlist "ch1" (programmes rA) ++ Dict.getlist "ch1" (programmes rB).
Proof.
  intros rA rB.
  rewrite (merge_programme_union [rA; rB] "ch1").
  - reflexivity.
  - repeat constructor; vm_compute; intros Hin; inversion Hin.
Defined.

(** A source with programmes but without a channel is left out: its
    programmes are not in the aggregate. *)
Lemma merge_omits_source_without_channel :
  let rC := (parse_epg (H := Reference.collaborators)
               (Some Reference.source_C_text) true initial_world).1 in
  NoDup (Dict.keys (programmes rC))
  /\ length (contributions "c1" [rC]) = 1
  /\ Dict.getlist "c1" (all_programmes (merge [rC])) = []
  /\ Dict.getlist "c1" (all_programmes (merge [rC])) <> contributions "c1" [rC].
Proof.
  vm_compute. split; [|split; [done|split; [done|discriminate]]].
  apply NoDup_singleton.
Qed.

(** C7. Last write wins: the aggregate gives every channel id the display
    name of the last source, in the order of processing, that defines it;
    with two sources that both define an id, the name is the one of the
    second. *)
Theorem merge_last_write_wins (results : list ParseResult) (k : string) :
  Forall (fun r => NoDup (Dict.keys (channels r))) results ->
  Dict.get k (all_channels (merge results)) = last_defined k results
  /\ (forall r1 r2 name2,
        results = [r1; r2] -> Dict.get k (channels r2) = Some name2 ->
        Dict.get k (all_channels (merge results)) = Some name2).
Proof.
  intros Hwf.
  assert (Hlast : Dict.get k (all_channels (merge results)) = last_defined k results).
  { unfold merge. rewrite (merge_from_channels _ _ _ Hwf).
    by destruct (last_defined k results). }
  split; [exact Hlast|].
  intros r1 r2 name2 -> H2. rewrite Hlast. simpl. by rewrite H2.
Qed.

Lemma merge_last_write_wins_witness :
  let rA := (parse_epg (H := Reference.collaborators)
               (Some Reference.source_A_text) true initial_world).1 in
  let rB := (parse_epg (H := Reference.collaborators)
               (Some Reference.source_B_text) true initial_world).1 in
  Dict.get "ch1" (all_channels (merge [rA; rB])) = Some (Some "B Name")
  /\ Dict.get "ch1" (all_channels (merge [rB; rA])) = Some (Some "A Name").
Proof.
  intros rA rB. split.
  - refine (proj2 (merge_last_write_wins [rA; rB] "ch1" _) rA rB _ eq_refl eq_refl).
    repeat constructor; vm_compute; intros Hin; inversion Hin.
  - refine (proj2 (merge_last_write_wins [rB; rA] "ch1" _) rB rA _ eq_refl eq_refl).
    repeat constructor; vm_compute; intros Hin; inversion Hin.
Defined.

(** ** The Fetcher *)

Lemma fetch_epg_value (net : Fetcher.Network) (i : nat) (url : string) :
  (Fetcher.fetch_epg net i url).1
  = match Fetcher.attempt net i url with
    | Fetcher.Returns body => Some body
    | Fetcher.Raises _ => None
    end.
Proof.
  unfold Fetcher.fetch_epg. by destruct (Fetcher.attempt net i url) as [body|[]].
Qed.

Lemma attempt_succeeds (net : Fetcher.Network) (i : nat) (url body : string) :
  Fetcher.attempt net i url = Fetcher.Returns body
  <-> exists response,
        net i url = Fetcher.Returns response
        /\ Fetcher.status response < 400
        /\ Fetcher.read_text response = Fetcher.Returns body.
Proof.
  unfold Fetcher.attempt, Fetcher.and_then, Fetcher.raise_for_status. split.
  - destruct (net i url) as [response|e]; [|done].
    destruct (Nat.leb_spec 400 (Fetcher.status response)); [done|].
    intros Hbody. by exists response.
  - intros (response & -> & Hst & Hbody).
    destruct (Nat.leb_spec 400 (Fetcher.status response)); [lia|done].
Qed.

(** C8. The Fetcher: the results are as many as the locators; the result
    at a position is the text fetched for the locator at that position
    when its request succeeds, and [None] when it fails in any of the
    ways [fetch_epg] tells apart; a request succeeds exactly when the
    server answers with a status below 400 and a body that reads as text.
    What one request does has no effect on the result of another. *)
Theorem fetch_all_positional (net : Fetcher.Network) (urls : list string) :
  length (Fetcher.fetch_all net urls) = length urls
  /\ (forall i,
        Fetcher.fetch_all net urls !! i
        = (fun url =>
             match Fetcher.attempt net i url with
             | Fetcher.Returns body => Some body
             | Fetcher.Raises _ => None
             end) <$> urls !! i)
  /\ (forall i url body,
        Fetcher.attempt net i url = Fetcher.Returns body
        <-> exists response,
              net i url = Fetcher.Returns response
              /\ Fetcher.status response < 400
              /\ Fetcher.read_text response = Fetcher.Returns body).
Proof.
  unfold Fetcher.fetch_all, Fetcher.gather. split; [|split].
  - by rewrite length_fmap, length_imap.
  - intros i. rewrite list_lookup_fmap, list_lookup_imap.
    destruct (urls !! i) as [url|]; simpl; [|done].
    by rewrite fetch_epg_value.
  - apply attempt_succeeds.
Qed.

(** Three locators: the first times out, the second is answered with
    status 404, the third succeeds. *)
Example fetch_all_mixed :
  Fetcher.fetch_all
    (fun i _ =>
       match i with
       | 0 => Fetcher.Raises Fetcher.TimeoutError
       | 1 => Fetcher.Returns (Fetcher.mkResponse 404 (Fetcher.Returns "Not Found"))
       | _ => Fetcher.Returns (Fetcher.mkResponse 200 (Fetcher.Returns "<tv/>"))
       end)
    ["http://a"; "http://b"; "http://c"]
  = [None; None; Some "<tv/>"].
Proof. reflexivity. Qed.

(** ** The key of a programme *)

Section Keys.
Context `{Collaborators}.

Lemma keyed_set (k : string) (l : list Element) (d : Dict.t (list Element)) :
  keyed d -> Forall (fun p => ET.get p "channel" = Some k) l ->
  keyed (Dict.set k l d).
Proof.
  unfold keyed. intros Hd Hl.
  induction Hd as [|[k0 l0] d Hk0 Hd IH]; simpl.
  - by repeat constructor.
  - destruct (decide (k0 = k)) as [->|Hne]; by constructor.
Qed.

Lemma keyed_getlist (k : string) (d : Dict.t (list Element)) :
  keyed d -> Forall (fun p => ET.get p "channel" = Some k) (Dict.getlist k d).
Proof.
  unfold keyed, Dict.getlist. induction 1 as [|[k0 l0] d Hk0 Hd IH]; simpl.
  - constructor.
  - destruct (decide (k0 = k)) as [->|Hne]; [exact Hk0|exact IH].
Qed.

Lemma keyed_extend (k : string) (l : list Element) (d : Dict.t (list Element)) :
  keyed d -> Forall (fun p => ET.get p "channel" = Some k) l ->
  keyed (Dict.extend k l d).
Proof.
  intros Hd Hl. apply keyed_set; [done|].
  apply Forall_app. split; [by apply keyed_getlist|done].
Qed.

Lemma keyed_programme_step (es : list Element) (d : Dict.t (list Element)) :
  keyed d -> keyed (fold_left programme_step es d).
Proof.
  revert d. induction es as [|e es IH]; intros d Hd; simpl; [done|].
  apply IH. unfold programme_step.
  destruct (filed_as e) as [[k p]|] eqn:Ha; [|done].
  apply keyed_extend; [done|]. repeat constructor.
  destruct (filed_attrib _ _ _ Ha) as (ds & dt & _ & _ & _ & Hattr).
  unfold ET.get. by rewrite Hattr.
Qed.

Lemma keyed_extend_all (d o : Dict.t (list Element)) :
  keyed d -> keyed o -> keyed (extend_all d o).
Proof.
  unfold extend_all. intros Hd Ho. revert d Hd.
  induction Ho as [|[k0 l0] o Hk0 Ho IH]; intros d Hd; simpl; [done|].
  apply IH. by apply keyed_extend.
Qed.

Lemma keyed_merge_one (agg : Aggregate) (r : ParseResult) :
  keyed (all_programmes agg) -> keyed (programmes r) ->
  keyed (all_programmes (merge_one agg r)).
Proof.
  intros Hagg Hr. unfold merge_one.
  destruct (Dict.nonempty (channels r)); simpl; [|done].
  by apply keyed_extend_all.
Qed.

Lemma keyed_parse_epg (epg_content : option string) (use_cache : bool) (w : World) :
  cache_sound w -> keyed (programmes (parse_epg epg_content use_cache w).1).
Proof.
  intros Hs.
  assert (Hdoc : forall root, keyed (document_programmes root)).
  { intros root. apply keyed_programme_step. constructor. }
  destruct epg_content as [content|]; [|rewrite parse_epg_blank by done; constructor].
  destruct (decide (PyStr.strip content = "")) as [Hb|Hb];
    [rewrite parse_epg_blank by done; constructor|].
  destruct (if use_cache then epg_cache w !! get_content_hash content else None)
    as [r0|] eqn:Hc.
  - destruct use_cache; [|done]. rewrite (parse_epg_hit _ _ _ Hb Hc). simpl.
    destruct (Hs _ _ Hc) as (root & _ & ->). apply Hdoc.
  - rewrite (parse_epg_miss _ _ _ Hb Hc).
    destruct (fromstring content) as [root|] eqn:Hroot.
    + destruct (parse_uncached_wellformed content use_cache root w Hroot)
        as (evs & _ & ->). apply Hdoc.
    + rewrite parse_uncached_malformed by done. constructor.
Qed.

(** An invariant of the accumulator and the world holds after a loop when
    every turn keeps it. *)
Lemma for_each_invariant {A S} (Inv : S -> World -> Prop) (body : A -> S -> M S) :
  (forall x acc w, Inv acc w -> Inv (body x acc w).1 (body x acc w).2) ->
  forall xs acc w, Inv acc w -> Inv (for_each xs body acc w).1 (for_each xs body acc w).2.
Proof.
  intros Hbody xs. induction xs as [|x xs IH]; intros acc w Hinv; simpl; [done|].
  unfold bind. specialize (Hbody x acc w Hinv).
  destruct (body x acc w) as [acc' w']. by apply IH.
Qed.

Lemma keyed_main_loop (epg_contents : list (option string)) (w : World) :
  cache_sound w -> keyed (all_programmes (main_loop epg_contents w).1).
Proof.
  intros Hs. unfold main_loop.
  apply (for_each_invariant
           (fun agg w => keyed (all_programmes agg) /\ cache_sound w) main_body).
  - intros [i [content|]] agg w' [Hk Hs']; unfold main_body; cbn [snd fst];
      [|by simpl].
    unfold bind.
    pose proof (keyed_parse_epg (Some content) true w' Hs') as Hr.
    pose proof (cache_sound_preserved (Some content) true w' Hs') as Hw.
    destruct (parse_epg (Some content) true w') as [r w'']. cbn [snd fst ret] in *.
    split; [by apply keyed_merge_one|done].
  - split; [constructor|done].
Qed.

End Keys.

Lemma keyed_merge_from (results : list ParseResult) (agg : Aggregate) :
  keyed (all_programmes agg) ->
  Forall (fun r => keyed (programmes r)) results ->
  keyed (all_programmes (fold_left merge_one results agg)).
Proof.
  intros Hagg Hrs. revert agg Hagg.
  induction Hrs as [|r results Hr _ IH]; intros agg Hagg; simpl; [done|].
  apply IH. by apply keyed_merge_one.
Qed.

Lemma keyed_merge (results : list ParseResult) :
  Forall (fun r => keyed (programmes r)) results ->
  keyed (all_programmes (merge results)).
Proof. intros Hrs. unfold merge. apply keyed_merge_from; [constructor|done]. Qed.

(** ** The tree that is written *)

Lemma children_add_channels (chs : Dict.t (option string)) (root : Element) :
  children (fold_left add_channel chs root) = children root ++ map channel_tree chs
  /\ tag (fold_left add_channel chs root) = tag root.
Proof.
  revert root. induction chs as [|kv chs IH]; intros root; simpl.
  - by rewrite app_nil_r.
  - destruct (IH (add_channel root kv)) as [-> ->]. simpl.
    by rewrite <- app_assoc.
Qed.

Lemma children_add_programmes_one (k : string) (ps : list Element) (root : Element) :
  children (fold_left (fun root prog => ET.append (ET.set "channel" k prog) root) ps root)
  = children root ++ map (ET.set "channel" k) ps.
Proof.
  revert root. induction ps as [|p ps IH]; intros root; simpl.
  - by rewrite app_nil_r.
  - rewrite IH. simpl. by rewrite <- app_assoc.
Qed.

Lemma children_add_programmes (progs : Dict.t (list Element)) (root : Element) :
  children (fold_left add_programmes progs root)
  = children root ++ written_programmes progs.
Proof.
  unfold written_programmes. revert root.
  induction progs as [|kv progs IH]; intros root; simpl.
  - by rewrite app_nil_r.
  - rewrite IH. unfold add_programmes. rewrite children_add_programmes_one.
    by rewrite <- app_assoc.
Qed.

Lemma children_write_to_xml (chs : Dict.t (option string))
    (progs : Dict.t (list Element)) (now : datetime) :
  children (write_to_xml chs progs now)
  = map channel_tree chs ++ written_programmes progs.
Proof.
  unfold write_to_xml. rewrite children_add_programmes.
  by destruct (children_add_channels chs
       (mkElement "tv" [("date", Strftime.strftime output_format now)] None []))
    as [-> _].
Qed.

Lemma get_set_channel (k : string) (p : Element) :
  ET.get (ET.set "channel" k p) "channel" = Some k.
Proof. unfold ET.get, ET.set. simpl. apply DictFacts.get_set_eq. Qed.

Lemma dict_set_same {V} (k : string) (v : V) (d : Dict.t V) :
  Dict.get k d = Some v -> Dict.set k v d = d.
Proof.
  induction d as [|[k0 v0] d IH]; simpl; [done|].
  destruct (decide (k0 = k)) as [->|Hne].
  - by intros [= ->].
  - intros Hg. by rewrite IH.
Qed.

Lemma set_channel_same (k : string) (p : Element) :
  ET.get p "channel" = Some k -> ET.set "channel" k p = p.
Proof.
  unfold ET.get, ET.set. intros Hg. rewrite (dict_set_same _ _ _ Hg).
  by destruct p.
Qed.

Lemma written_programmes_keyed (progs : Dict.t (list Element)) :
  keyed progs -> written_programmes progs = concat (map snd progs).
Proof.
  unfold written_programmes, keyed.
  induction 1 as [|[k l] progs Hl _ IH]; simpl; [done|].
  rewrite IH. f_equal. simpl in Hl.
  induction Hl as [|p l Hp _ IHl]; simpl; [done|].
  by rewrite IHl, (set_channel_same _ _ Hp).
Qed.

Lemma elem_of_written_programmes (progs : Dict.t (list Element)) (q : Element) :
  q ∈ written_programmes progs
  <-> exists k l p, (k, l) ∈ progs /\ p ∈ l /\ q = ET.set "channel" k p.
Proof.
  unfold written_programmes. induction progs as [|[k0 l0] progs IH]; simpl.
  - split; [intros Hq; by apply not_elem_of_nil in Hq|].
    intros (k & l & p & Hkl & _). by apply not_elem_of_nil in Hkl.
  - rewrite elem_of_app, IH, list_elem_of_fmap. split.
    + intros [(p & -> & Hp)|(k & l & p & Hkl & Hp & ->)].
      * exists k0, l0, p. split; [apply list_elem_of_here|done].
      * exists k, l, p. split; [by apply list_elem_of_further|done].
    + intros (k & l & p & Hkl & Hp & ->).
      apply elem_of_cons in Hkl as [Heq|Hkl].
      * apply pair_eq in Heq as [-> ->]. left. by exists p.
      * right. by exists k, l, p.
Qed.

(** C9. The key of a programme is its channel id at every stage: in what
    [parse_epg] returns, in the aggregate the merge builds from results
    that have the property, in the aggregate of the loop of [main], and in
    the tree that is written, where each programme element carries the key
    it was stored under and, the aggregate having the property, is the
    stored element unchanged. *)
Theorem programme_key_consistency `{Collaborators} :
  (forall epg_content use_cache w,
     cache_sound w -> keyed (programmes (parse_epg epg_content use_cache w).1))
  /\ (forall results,
        Forall (fun r => keyed (programmes r)) results ->
        keyed (all_programmes (merge results)))
  /\ (forall epg_contents w,
        cache_sound w -> keyed (all_programmes (main_loop epg_contents w).1))
  /\ (forall chs progs now,
        children (write_to_xml chs progs now)
        = map channel_tree chs ++ written_programmes progs
        /\ (forall q, q ∈ written_programmes progs ->
              exists k l p, (k, l) ∈ progs /\ p ∈ l
                            /\ q = ET.set "channel" k p
                            /\ ET.get q "channel" = Some k)
        /\ (keyed progs -> written_programmes progs = concat (map snd progs))).
Proof.
  split; [exact keyed_parse_epg|]. split; [exact keyed_merge|].
  split; [exact keyed_main_loop|].
  intros chs progs now. split; [apply children_write_to_xml|].
  split; [|apply written_programmes_keyed].
  intros q Hq. apply elem_of_written_programmes in Hq as (k & l & p & Hkl & Hp & ->).
  exists k, l, p. by rewrite get_set_channel.
Qed.

Lemma programme_key_consistency_witness :
  keyed (programmes (parse_epg (H := Reference.collaborators)
                       (Some Reference.source_D_text) true initial_world).1)
  /\ keyed (all_programmes
              (main_loop (H := Reference.collaborators)
                 [Some Reference.source_A_text; None; Some Reference.source_D_text]
                 initial_world).1).
Proof.
  destruct (programme_key_consistency (H := Reference.collaborators))
    as (Hparse & _ & Hloop & _).
  split.
  - exact (Hparse (Some Reference.source_D_text) true initial_world
             (cache_sound_initial (H := Reference.collaborators))).
  - exact (Hloop [Some Reference.source_A_text; None; Some Reference.source_D_text]
             initial_world (cache_sound_initial (H := Reference.collaborators))).
Defined.

(** ** A whole run *)

Section WholeRun.
Context `{Collaborators}.

(** The dictionaries [parse_epg] returns have no key twice. *)
Lemma parse_epg_wf (epg_content : option string) (use_cache : bool) (w : World) :
  cache_sound w ->
  NoDup (Dict.keys (channels (parse_epg epg_content use_cache w).1))
  /\ NoDup (Dict.keys (programmes (parse_epg epg_content use_cache w).1)).
Proof.
  intros Hs.
  assert (Hdoc : forall root, NoDup (Dict.keys (document_channels root))
                              /\ NoDup (Dict.keys (document_programmes root))).
  { intros root. split; [apply wf_channel_step|apply wf_programme_step];
      apply NoDup_nil_2. }
  assert (Hnil : NoDup (Dict.keys (@nil (string * option string)))
                 /\ NoDup (Dict.keys (@nil (string * list Element)))).
  { split; apply NoDup_nil_2. }
  destruct epg_content as [content|]; [|by rewrite parse_epg_blank].
  destruct (decide (PyStr.strip content = "")) as [Hb|Hb];
    [by rewrite parse_epg_blank|].
  destruct (if use_cache then epg_cache w !! get_content_hash content else None)
    as [r0|] eqn:Hc.
  - destruct use_cache; [|done]. rewrite (parse_epg_hit _ _ _ Hb Hc). simpl.
    destruct (Hs _ _ Hc) as (root & -> & ->). apply Hdoc.
  - rewrite (parse_epg_miss _ _ _ Hb Hc).
    destruct (fromstring content) as [root|] eqn:Hroot.
    + destruct (parse_uncached_wellformed content use_cache root w Hroot)
        as (evs & _ & ->). apply Hdoc.
    + by rewrite parse_uncached_malformed.
Qed.

(** A run on one locator whose document is fetched. *)
Lemma main_single (net : Fetcher.Network) (url content : string) (now : datetime)
    (w : World) :
  Fetcher.attempt net 0 url = Fetcher.Returns content ->
  (main net [url] now w).1
  = let agg := merge [(parse_epg (Some content) true w).1] in
    match all_channels agg with
    | [] => None
    | _ :: _ => Some (write_to_xml (all_channels agg) (all_programmes agg) now)
    end.
Proof.
  intros Hnet. unfold main, main_loop, Fetcher.fetch_all, Fetcher.gather.
  cbn [imap fmap list_fmap for_each]. rewrite fetch_epg_value, Hnet.
  unfold main_body, merge. cbn [fst snd fold_left]. unfold bind at 1 2 3.
  destruct (parse_epg (Some content) true w) as [r w']. cbn [fst snd ret].
  unfold bind. cbn [print emit].
  by destruct (all_channels (merge_one empty_aggregate r)).
Qed.

End WholeRun.

(** C10. Programmes are not checked against the channel table: a document
    that lists the channel [c1] and has one programme of a channel [c2]
    gives a parse result, an aggregate and a written tree in which [c2]
    has a programme and no channel. *)
Theorem programmes_not_checked_against_channels `{Collaborators}
    (net : Fetcher.Network) (url content : string) (now : datetime)
    (channel_start channel_stop : datetime) :
  Fetcher.attempt net 0 url = Fetcher.Returns content ->
  PyStr.strip content <> "" ->
  fromstring content = Some Reference.source_E ->
  cc_convert "c1" = Some "c1" ->
  cc_convert "c2" = Some "c2" ->
  strptime "20240101060000-0500" = Some channel_start ->
  strptime "20240101070000-0500" = Some channel_stop ->
  let r := (parse_epg (Some content) true initial_world).1 in
  let agg := merge [r] in
  Dict.keys (channels r) = ["c1"] /\ Dict.keys (programmes r) = ["c2"]
  /\ Dict.keys (all_channels agg) = ["c1"] /\ Dict.keys (all_programmes agg) = ["c2"]
  /\ exists out,
       (main net [url] now initial_world).1 = Some out
       /\ (fun c => ET.get c "id") <$> ET.findall out "channel" = [Some "c1"]
       /\ (fun p => ET.get p "channel") <$> ET.findall out "programme" = [Some "c2"].
Proof.
  intros Hnet Hb Hroot Hc1 Hc2 Hstart Hstop r agg.
  assert (Hr : channels r = [("c1", normalize (Some "One"))]
               /\ exists p, programmes r = [("c2", [p])]
                            /\ tag p = "programme" /\ ET.get p "channel" = Some "c2").
  { pose proof (parse_epg_value content true initial_world Hb
                  (fun _ => cache_agrees_initial content)) as Hv.
    cbv zeta in Hv. rewrite Hroot in Hv. destruct Hv as [Hch Hpr]. fold r in Hch, Hpr.
    split.
    - rewrite Hch. unfold document_channels, channel_step. simpl. by rewrite Hc1.
    - eexists. rewrite Hpr. unfold document_programmes, programme_step, filed_as.
      simpl. rewrite Hc2. simpl. rewrite Hstart, Hstop. simpl. done. }
  destruct Hr as [Hch (p & Hpr & Htag & Hp)].
  assert (Hagg : all_channels agg = [("c1", normalize (Some "One"))]
                 /\ all_programmes agg = [("c2", [p])]).
  { subst agg. unfold merge, merge_one. simpl. by rewrite Hch, Hpr. }
  destruct Hagg as [Hac Hap].
  rewrite Hch, Hpr, Hac, Hap. do 4 (split; [done|]).
  eexists. split.
  - rewrite (main_single net url content now initial_world Hnet).
    fold r. fold agg. cbv zeta. rewrite Hac, Hap. reflexivity.
  - unfold ET.findall. rewrite children_write_to_xml.
    unfold written_programmes. simpl. rewrite !filter_cons. simpl.
    rewrite Htag. simpl. by rewrite get_set_channel.
Qed.

Lemma programmes_not_checked_against_channels_witness :
  exists out,
    (main (H := Reference.collaborators)
       (fun _ _ => Fetcher.Returns
                     (Fetcher.mkResponse 200 (Fetcher.Returns Reference.source_E_text)))
       ["http://e"] (mkDatetime 2024 1 2 3 4 5 0) initial_world).1 = Some out
    /\ (fun c => ET.get c "id") <$> ET.findall out "channel" = [Some "c1"]
    /\ (fun p => ET.get p "channel") <$> ET.findall out "programme" = [Some "c2"].
Proof.
  destruct (programmes_not_checked_against_channels (H := Reference.collaborators)
              (fun _ _ => Fetcher.Returns
                 (Fetcher.mkResponse 200 (Fetcher.Returns Reference.source_E_text)))
              "http://e" Reference.source_E_text (mkDatetime 2024 1 2 3 4 5 0)
              (mkDatetime 2024 1 1 6 0 0 (-18000)) (mkDatetime 2024 1 1 7 0 0 (-18000))
              eq_refl ltac:(discriminate) eq_refl eq_refl eq_refl eq_refl eq_refl)
    as (_ & _ & _ & _ & Hout).
  exact Hout.
Defined.

(** ** The canonical grammar and the output format *)

Lemma digit_value_char (c : ascii) (d : nat) :
  Reference.digit_value c = Some d -> d < 10 /\ c = Strftime.digit_char d.
Proof.
  unfold Reference.digit_value, Strftime.digit_char.
  destruct (Nat.leb_spec 48 (nat_of_ascii c)) as [Hlo|]; [|done].
  destruct (Nat.leb_spec (nat_of_ascii c) 57) as [Hhi|]; [|done].
  cbn [andb]. intros Hd. apply (inj Some) in Hd. subst d. split; [lia|].
  replace (48 + (nat_of_ascii c - 48)) with (nat_of_ascii c) by lia.
  by rewrite ascii_nat_embedding.
Qed.

(** [digits] reads back what [zero_padded] writes. *)
Lemma digits_spec (width acc : nat) (s rest : string) (n : nat) :
  Reference.digits width acc s = Some (n, rest) ->
  s = Strftime.zero_padded width n +:+ rest /\ n / 10 ^ width = acc.
Proof.
  revert acc s. induction width as [|w IH]; intros acc s Hr.
  - cbn in Hr. apply (inj Some) in Hr. apply pair_eq in Hr as [<- <-].
    split; [done|]. apply Nat.div_1_r.
  - destruct s as [|c r]; [done|].
    change (match Reference.digit_value c with
            | Some d => Reference.digits w (10 * acc + d) r
            | None => None
            end = Some (n, rest)) in Hr.
    destruct (Reference.digit_value c) as [d|] eqn:Hd; [|done].
    apply IH in Hr as [-> Hn].
    apply digit_value_char in Hd as [Hd ->].
    change (Strftime.zero_padded (S w) n)
      with (String (Strftime.digit_char (n / 10 ^ w mod 10))
              (Strftime.zero_padded w n)).
    rewrite Hn. split.
    + change (String ?a ?x +:+ ?y) with (String a (x +:+ y)).
      do 2 f_equal. rewrite (Nat.mul_comm 10 acc), Nat.add_comm.
      rewrite Nat.Div0.mod_add. symmetry. by apply Nat.mod_small.
    + rewrite Nat.pow_succ_r', (Nat.mul_comm 10 (10 ^ w)), <- Nat.Div0.div_div, Hn.
      rewrite (Nat.mul_comm 10 acc), Nat.div_add_l by done.
      rewrite (Nat.div_small d 10) by done. lia.
Qed.

(** From the year 1000 on, the year has four digits. *)
Lemma decimal_four_digits (n : nat) :
  1000 <= n < 10 * 1000 -> Strftime.decimal n = Strftime.zero_padded 4 n.
Proof.
  intros Hn.
  assert (Hall : forallb (fun n => String.eqb (Strftime.decimal n)
                                     (Strftime.zero_padded 4 n))
                   (seq 1000 (9 * 1000)) = true) by (vm_compute; reflexivity).
  rewrite forallb_forall in Hall. apply String.eqb_eq, Hall, in_seq. lia.
Qed.

(** What the canonical reader accepts starts with the very digits the
    output format writes, for a year that has four digits. *)
Lemma reference_strptime_digits (s : string) (dt : datetime) :
  Reference.strptime s = Some dt -> 1000 <= year dt ->
  exists offset_text,
    s = Strftime.wall_clock dt +:+ offset_text /\ String.length offset_text = 5.
Proof.
  unfold Reference.strptime.
  destruct (Reference.digits 4 0 s) as [[Y s1]|] eqn:HY;
    cbn [mbind option_bind]; [|done].
  destruct (Reference.digits 2 0 s1) as [[m s2]|] eqn:Hm;
    cbn [mbind option_bind]; [|done].
  destruct (Reference.digits 2 0 s2) as [[d s3]|] eqn:Hd;
    cbn [mbind option_bind]; [|done].
  destruct (Reference.digits 2 0 s3) as [[h s4]|] eqn:Hh;
    cbn [mbind option_bind]; [|done].
  destruct (Reference.digits 2 0 s4) as [[mi s5]|] eqn:Hmi;
    cbn [mbind option_bind]; [|done].
  destruct (Reference.digits 2 0 s5) as [[se s6]|] eqn:Hse;
    cbn [mbind option_bind]; [|done].
  destruct s6 as [|c s7]; [done|].
  destruct (Reference.sign_value c) as [sg|]; cbn [mbind option_bind]; [|done].
  destruct (Reference.digits 2 0 s7) as [[oh s8]|] eqn:Hoh;
    cbn [mbind option_bind]; [|done].
  destruct (Reference.digits 2 0 s8) as [[om s9]|] eqn:Hom;
    cbn [mbind option_bind]; [|done].
  destruct s9; [|done].
  destruct (Reference.in_range _ oh om); [|done].
  intros Hdt Hyear. apply (inj Some) in Hdt. subst dt.
  cbn [year] in Hyear.
  apply digits_spec in HY as [-> HY], Hm as [-> _], Hd as [-> _], Hh as [-> _],
    Hmi as [-> _], Hse as [-> _], Hoh as [-> _], Hom as [-> _].
  exists (String c (Strftime.zero_padded 2 oh +:+ Strftime.zero_padded 2 om +:+ "")).
  split; [|done]. unfold Strftime.wall_clock.
  cbn [year month day hour minute second].
  rewrite decimal_four_digits; [by rewrite !string_app_assoc|].
  split; [done|]. apply Nat.div_small_iff in HY; [|done].
  by replace (10 ^ 4) with (10 * 1000) in HY by (vm_compute; reflexivity).
Qed.

(** With the canonical reader, a timestamp of the document is written with
    its own fourteen digits, whatever offset followed them. *)
Lemma reference_output_keeps_digits (s : string) (dt : datetime) :
  Reference.strptime s = Some dt -> 1000 <= year dt ->
  exists offset_text,
    s = Strftime.wall_clock dt +:+ offset_text
    /\ Strftime.strftime output_format dt = Strftime.wall_clock dt +:+ " +0800".
Proof.
  intros Hs Hy. destruct (reference_strptime_digits s dt Hs Hy) as (off & Heq & _).
  exists off. split; [done|apply strftime_output_format].
Qed.

(** ** The loop of [main] is the merge of the parse results *)

Section Loop.
Context `{Collaborators}.

Lemma for_each_main_body (items : list (nat * option string)) (agg : Aggregate)
    (w : World) :
  (for_each items main_body agg w).1
  = fold_left merge_one (loop_results items w) agg.
Proof.
  revert agg w. induction items as [|[i [content|]] items IH]; intros agg w.
  - done.
  - cbn [for_each loop_results fold_left]. unfold bind at 1.
    unfold main_body at 1. cbn [fst snd]. unfold bind at 1.
    destruct (parse_epg (Some content) true w) as [r w']. cbn [fst snd ret].
    apply IH.
  - cbn [for_each loop_results fold_left]. unfold bind at 1.
    unfold main_body at 1. cbn [fst snd]. unfold bind at 1.
    destruct (print (MsgUrlEmpty (i + 1)) w) as [u w']. cbn [fst snd ret].
    apply IH.
Qed.

Lemma main_loop_merge (epg_contents : list (option string)) (w : World) :
  (main_loop epg_contents w).1 = merge (loop_results (imap pair epg_contents) w).
Proof. unfold main_loop, merge. apply for_each_main_body. Qed.

Lemma loop_results_wf (items : list (nat * option string)) (w : World) :
  cache_sound w ->
  Forall (fun r => NoDup (Dict.keys (channels r))
                   /\ NoDup (Dict.keys (programmes r)))
    (loop_results items w).
Proof.
  revert w. induction items as [|[i [content|]] items IH]; intros w Hs;
    cbn [loop_results].
  - constructor.
  - constructor; [by apply parse_epg_wf|]. apply IH. by apply cache_sound_preserved.
  - by apply IH.
Qed.

(** The aggregate of a run, in terms of what each document gave. *)
Lemma main_loop_aggregate (epg_contents : list (option string)) (w : World) (k : string) :
  cache_sound w ->
  let results := loop_results (imap pair epg_contents) w in
  Dict.get k (all_channels (main_loop epg_contents w).1) = last_defined k results
  /\ Dict.getlist k (all_programmes (main_loop epg_contents w).1)
     = contributions k (merged_sources results).
Proof.
  intros Hs results. rewrite main_loop_merge. fold results.
  pose proof (loop_results_wf (imap pair epg_contents) w Hs) as Hwf.
  fold results in Hwf. apply Forall_and in Hwf as [Hc Hp]. split.
  - unfold merge. rewrite (merge_from_channels _ _ _ Hc).
    by destruct (last_defined k results).
  - unfold merge. by rewrite (merge_from_programmes _ _ _ Hp).
Qed.

End Loop.

(** The scenario of the design document: source A, then source B. *)
Example end_to_end_scenario :
  (fun agg =>
     (Dict.get "ch1" (all_channels agg),
      map (fun p => (ET.get p "start", ET.get p "stop"))
        (Dict.getlist "ch1" (all_programmes agg))))
    (main_loop (H := Reference.collaborators)
       [Some Reference.source_A_text; Some Reference.source_B_text] initial_world).1
  = (Some (Some "B Name"),
     [(Some "20240101060000 +0800", Some "20240101070000 +0800");
      (Some "20240101070000 +0800", Some "20240101080000 +0800")]).
Proof. reflexivity. Qed.

(** * Further properties of the code *)

(** ** The list of sources *)

Lemma string_app_nil_r (s : string) : s +:+ "" = s.
Proof.
  induction s as [|c s IH]; [done|].
  change (String c (s +:+ "") = String c s). by rewrite IH.
Qed.

Lemma rev_app_rev_app (s t u : string) :
  String.rev_app (String.rev_app s t) u = String.rev_app t (s +:+ u).
Proof.
  revert t u. induction s as [|c s IH]; intros t u; [done|].
  change (String.rev_app (String.rev_app s (String c t)) u
          = String.rev_app t (String c (s +:+ u))).
  by rewrite IH.
Qed.

Lemma string_rev_involutive (s : string) : String.rev (String.rev s) = s.
Proof. unfold String.rev. rewrite rev_app_rev_app. apply string_app_nil_r. Qed.

Lemma rev_app_append (s1 s2 t : string) :
  String.rev_app (s1 +:+ s2) t = String.rev_app s2 (String.rev_app s1 t).
Proof.
  revert t. induction s1 as [|c s1 IH]; intros t; [done|].
  change (String.rev_app (s1 +:+ s2) (String c t)
          = String.rev_app s2 (String.rev_app s1 (String c t))).
  apply IH.
Qed.

Lemma rev_app_singleton (s t : string) :
  String.rev_app s t = String.rev_app s "" +:+ t.
Proof.
  revert t. induction s as [|c s IH]; intros t; [done|].
  change (String.rev_app s (String c t) = String.rev_app s (String c "") +:+ t).
  rewrite (IH (String c t)), (IH (String c "")), string_app_assoc. done.
Qed.

Lemma lstrip_idempotent (s : string) :
  PyStr.lstrip (PyStr.lstrip s) = PyStr.lstrip s.
Proof.
  destruct (lstrip_cases s) as [->|(c & r & -> & Hc)]; [done|].
  simpl. by rewrite Hc.
Qed.

Lemma lstrip_keeps_last (u : string) (c : ascii) :
  PyStr.isspace c = false ->
  exists x, PyStr.lstrip (u +:+ String c "") = x +:+ String c "".
Proof.
  intros Hc. induction u as [|a u IH].
  - exists "". simpl. by rewrite Hc.
  - change (exists x, PyStr.lstrip (String a (u +:+ String c "")) = x +:+ String c "").
    simpl. destruct (PyStr.isspace a); [exact IH|].
    by exists (String a u).
Qed.

Lemma rstrip_keeps_first (c : ascii) (r : string) :
  PyStr.isspace c = false ->
  exists r', PyStr.rstrip (String c r) = String c r'.
Proof.
  intros Hc. unfold PyStr.rstrip, String.rev.
  change (String.rev_app (String c r) "") with (String.rev_app r (String c "")).
  rewrite (rev_app_singleton r (String c "")).
  destruct (lstrip_keeps_last (String.rev_app r "") c Hc) as (x & ->).
  rewrite rev_app_append. by exists (String.rev_app x "").
Qed.

(** [strip] leaves nothing to strip. *)
Lemma strip_idempotent (s : string) : PyStr.strip (PyStr.strip s) = PyStr.strip s.
Proof.
  unfold PyStr.strip.
  assert (Hl : PyStr.lstrip (PyStr.rstrip (PyStr.lstrip s))
               = PyStr.rstrip (PyStr.lstrip s)).
  { destruct (lstrip_cases s) as [->|(c & r & -> & Hc)]; [done|].
    destruct (rstrip_keeps_first c r Hc) as (r' & ->). simpl. by rewrite Hc. }
  rewrite Hl. unfold PyStr.rstrip.
  by rewrite string_rev_involutive, lstrip_idempotent.
Qed.

Lemma keep_line_fold (ls : list string) (urls : list string) :
  fold_left Config.keep_line ls urls
  = urls ++ filter (fun u => u <> "" /\ String.prefix "#" u = false)
              (map PyStr.strip ls).
Proof.
  revert urls. induction ls as [|l ls IH]; intros urls.
  - simpl. by rewrite app_nil_r.
  - cbn [fold_left map]. rewrite IH, filter_cons. unfold Config.keep_line.
    destruct (PyStr.strip l) as [|c r] eqn:Hl; cbn [PyStr.truthy andb].
    + by rewrite decide_False by (by intros [? _]).
    + destruct (String.prefix "#" (String c r)) eqn:Hp; cbn [negb].
      * by rewrite decide_False by (by intros [_ ?]).
      * rewrite decide_True by done. by rewrite <- app_assoc.
Qed.

(** X1. [get_urls]: the locators are the lines of the file, stripped, in
    the order of the file, without those that are empty once stripped and
    those that then start with [#]; so every locator is non-empty, has no
    whitespace at either end and is no comment.  Without the file there is
    no locator. *)
Theorem get_urls_keeps_locators (file : Config.FileRead) :
  (Config.get_urls (Some file)).1
  = filter (fun u => u <> "" /\ String.prefix "#" u = false)
      (map PyStr.strip (Config.lines file))
  /\ Forall (fun u => u <> "" /\ PyStr.strip u = u /\ String.prefix "#" u = false)
       (Config.get_urls (Some file)).1
  /\ (Config.get_urls None).1 = [].
Proof.
  assert (Heq : (Config.get_urls (Some file)).1
                = filter (fun u => u <> "" /\ String.prefix "#" u = false)
                    (map PyStr.strip (Config.lines file))).
  { simpl. by rewrite keep_line_fold. }
  split; [exact Heq|]. split; [|done].
  rewrite Heq. apply Forall_forall. intros u Hu.
  apply list_elem_of_filter in Hu as [[Hne Hp] Hu].
  apply list_elem_of_fmap in Hu as (l & -> & _).
  split; [done|]. split; [apply strip_idempotent|done].
Qed.

(** A file with a comment, a blank line and two locators, one of them
    indented and followed by a line break. *)
Example get_urls_sample :
  Config.get_urls
    (Some (Config.mkFileRead
             ["# sources"; "http://a/epg.xml"; "   "; "  http://b/epg.xml  "; "#http://c"]
             false))
  = (["http://a/epg.xml"; "http://b/epg.xml"], []).
Proof. reflexivity. Qed.

(** ** The Fetcher reports what fails *)

(** X2. [fetch_epg] prints a message exactly when it returns [None]; the
    message names the locator; an answer with a status of 400 or more is
    reported as an HTTP error and its body is dropped, readable or not. *)
Theorem fetch_epg_reports_failure (net : Fetcher.Network) (i : nat) (url : string) :
  ((Fetcher.fetch_epg net i url).1 = None
   <-> (Fetcher.fetch_epg net i url).2 <> None)
  /\ (forall m, (Fetcher.fetch_epg net i url).2 = Some m ->
        m = MsgHttpError url \/ m = MsgTimeout url \/ m = MsgOtherError url)
  /\ (forall response,
        net i url = Fetcher.Returns response -> 400 <= Fetcher.status response ->
        Fetcher.fetch_epg net i url = (None, Some (MsgHttpError url))).
Proof.
  unfold Fetcher.fetch_epg. split; [|split].
  - destruct (Fetcher.attempt net i url) as [body|[]]; simpl; split; done.
  - intros m. destruct (Fetcher.attempt net i url) as [body|[]]; simpl;
      intros Hm; try done; apply (inj Some) in Hm; subst m; auto.
  - intros response Hnet Hst.
    unfold Fetcher.attempt, Fetcher.and_then, Fetcher.raise_for_status.
    rewrite Hnet. destruct (Nat.leb_spec 400 (Fetcher.status response)); [done|lia].
Qed.

Lemma fetch_epg_reports_failure_witness :
  Fetcher.fetch_epg
    (fun _ _ => Fetcher.Returns (Fetcher.mkResponse 503 (Fetcher.Returns "<tv/>")))
    0 "http://a"
  = (None, Some (MsgHttpError "http://a")).
Proof.
  exact (proj2 (proj2 (fetch_epg_reports_failure
           (fun _ _ => Fetcher.Returns (Fetcher.mkResponse 503 (Fetcher.Returns "<tv/>")))
           0 "http://a"))
           (Fetcher.mkResponse 503 (Fetcher.Returns "<tv/>")) eq_refl ltac:(simpl; lia)).
Defined.

(** ** The channel table of a document *)

Section ChannelTable.
Context `{Collaborators}.

Lemma get_channel_step (k : string) (es : list Element) (d : Dict.t (option string)) :
  k <> "" ->
  Dict.get k (fold_left channel_step es d)
  = match last (channels_named k es) with
    | Some e => Some (display_name_of e)
    | None => Dict.get k d
    end.
Proof.
  intros Hk. revert d. unfold channels_named.
  induction es as [|e es IH]; intros d; [done|].
  cbn [fold_left]. rewrite IH, filter_cons.
  destruct (decide (normalize (ET.get e "id") = Some k)) as [He|He].
  - rewrite last_cons.
    destruct (last (filter (λ e0, normalize (ET.get e0 "id") = Some k) es)); [done|].
    unfold channel_step. rewrite He. destruct k as [|c k]; [done|].
    apply DictFacts.get_set_eq.
  - destruct (last (filter (λ e0, normalize (ET.get e0 "id") = Some k) es)); [done|].
    unfold channel_step.
    destruct (normalize (ET.get e "id")) as [[|c id]|] eqn:Hid; try done.
    apply DictFacts.get_set_ne. intros Heq. apply He. by rewrite Heq.
Qed.

End ChannelTable.

(** X3. The channel table of a document: a channel id that is not empty is
    mapped to the display name of the last channel element of the document
    with that id (after normalization), and is absent when there is none;
    the name is the normalized text of the first [display-name] child,
    [None] when that child has no text, and the normalized empty string
    when there is no such child. *)
Theorem parse_epg_channel_table `{Collaborators}
    (content : string) (use_cache : bool) (w : World) (root : Element) (k : string) :
  PyStr.strip content <> "" ->
  (use_cache = true -> cache_agrees content w) ->
  fromstring content = Some root ->
  k <> "" ->
  Dict.get k (channels (parse_epg (Some content) use_cache w).1)
  = display_name_of <$> last (channels_named k (ET.findall root "channel")).
Proof.
  intros Hb Hag Hroot Hk.
  pose proof (parse_epg_value content use_cache w Hb Hag) as Hv.
  cbv zeta in Hv. rewrite Hroot in Hv. destruct Hv as [-> _].
  unfold document_channels. rewrite (get_channel_step k _ _ Hk).
  by destruct (last (channels_named k (ET.findall root "channel"))).
Qed.

Lemma parse_epg_channel_table_witness :
  (fun r => (Dict.get "c1" (channels r), Dict.get "c2" (channels r),
             Dict.get "c3" (channels r), Dict.get "c4" (channels r)))
    (parse_epg (H := Samples.collaborators)
       (Some Samples.source_F_text) true initial_world).1
  = (Some (Some "New"), Some (Some ""), Some None, None).
Proof.
  cbv beta.
  pose proof (fun k Hk =>
    parse_epg_channel_table (H := Samples.collaborators)
      Samples.source_F_text true initial_world Samples.source_F k
      ltac:(discriminate) (fun _ => cache_agrees_initial _) eq_refl Hk) as Htable.
  rewrite (Htable "c1" ltac:(discriminate)), (Htable "c2" ltac:(discriminate)),
    (Htable "c3" ltac:(discriminate)), (Htable "c4" ltac:(discriminate)).
  reflexivity.
Defined.

(** X4. Document order: the programmes [parse_epg] files under a channel id
    are the elements built for the programme elements of the document that
    pass the checks for that id, in the order of the document, one for
    each, repeated when the document repeats them. *)
Theorem parse_epg_programme_order `{Collaborators}
    (content : string) (use_cache : bool) (w : World) (root : Element) (k : string) :
  PyStr.strip content <> "" ->
  (use_cache = true -> cache_agrees content w) ->
  fromstring content = Some root ->
  Dict.getlist k (programmes (parse_epg (Some content) use_cache w).1)
  = filed_under k (ET.findall root "programme").
Proof.
  intros Hb Hag Hroot.
  pose proof (parse_epg_value content use_cache w Hb Hag) as Hv.
  cbv zeta in Hv. rewrite Hroot in Hv. destruct Hv as [_ ->].
  unfold document_programmes. by rewrite getlist_programme_step.
Qed.

Lemma parse_epg_programme_order_witness :
  (fun p => text <$> ET.find p "title")
    <$> Dict.getlist "c1"
          (programmes (parse_epg (H := Samples.collaborators)
                         (Some Samples.source_F_text) true initial_world).1)
  = [Some (Some "First"); Some (Some "Second")].
Proof.
  rewrite (parse_epg_programme_order (H := Samples.collaborators)
             Samples.source_F_text true initial_world Samples.source_F "c1"
             ltac:(discriminate) (fun _ => cache_agrees_initial _) eq_refl).
  reflexivity.
Defined.

(** X5. The element built for a programme: its tag is [programme], it has
    no text, its attributes are [channel], [start] and [stop] in this
    order, and its children are a [title] with the normalized title text,
    followed by a [desc] with the normalized description exactly when the
    source has a [desc] child with a text; the attributes of the source's
    title and every other child of the source are left out. *)
Theorem parse_epg_programme_shape `{Collaborators}
    (epg_content : option string) (use_cache : bool) (w : World)
    (k : string) (p : Element) :
  (forall content,
     epg_content = Some content -> use_cache = true -> cache_agrees content w) ->
  p ∈ Dict.getlist k (programmes (parse_epg epg_content use_cache w).1) ->
  exists content root programme title_text,
    epg_content = Some content /\ fromstring content = Some root
    /\ programme ∈ ET.findall root "programme"
    /\ has_title programme title_text
    /\ tag p = "programme" /\ text p = None
    /\ Dict.keys (attrib p) = ["channel"; "start"; "stop"]
    /\ children p = programme_children programme title_text.
Proof.
  intros Hag Hp.
  destruct (parse_epg_programme_origin _ _ _ _ _ Hag Hp)
    as (content & root & e & -> & Hroot & He & Ha).
  destruct (filed_attrib _ _ _ Ha) as (ds & dt & _ & _ & Htag & Hattr).
  apply filed_as_Some in Ha as (_ & _ & ds' & dt' & txt & _ & _ & Htxt & ->).
  exists content, root, e, txt. do 5 (split; [done|]).
  rewrite Hattr. unfold with_desc, programme_children.
  by destruct (ET.find e "desc") as [[t a [desc_text|] cs]|].
Qed.

Lemma parse_epg_programme_shape_witness :
  exists p,
    p ∈ Dict.getlist "c1"
          (programmes (parse_epg (H := Samples.collaborators)
                         (Some Samples.source_F_text) true initial_world).1)
    /\ Dict.keys (attrib p) = ["channel"; "start"; "stop"]
    /\ length (children p) = 2.
Proof.
  eexists.
  assert (Hp : ?[p] ∈ Dict.getlist "c1"
                 (programmes (parse_epg (H := Samples.collaborators)
                                (Some Samples.source_F_text) true initial_world).1))
    by (vm_compute; apply list_elem_of_here).
  destruct (parse_epg_programme_shape (H := Samples.collaborators)
              (Some Samples.source_F_text) true initial_world "c1" _
              (fun content _ _ => cache_agrees_initial content) Hp)
    as (_ & _ & _ & _ & _ & _ & _ & _ & _ & _ & Hkeys & _).
  split; [exact Hp|]. split; [exact Hkeys|reflexivity].
Defined.
(** ** More on the Content Cache *)

(** X6. Without the cache: with [use_cache=False], [parse_epg] leaves the
    cache as it is and returns maps that do not depend on what the cache
    holds. *)
Theorem parse_epg_without_cache `{Collaborators}
    (epg_content : option string) (w w' : World) :
  epg_cache (parse_epg epg_content false w).2 = epg_cache w
  /\ channels (parse_epg epg_content false w).1
     = channels (parse_epg epg_content false w').1
  /\ programmes (parse_epg epg_content false w).1
     = programmes (parse_epg epg_content false w').1.
Proof.
  destruct epg_content as [content|]; [|by rewrite !parse_epg_blank].
  destruct (decide (PyStr.strip content = "")) as [Hb|Hb];
    [by rewrite !parse_epg_blank|].
  rewrite !(parse_epg_miss content false _ Hb eq_refl).
  destruct (fromstring content) as [root|] eqn:Hroot.
  - destruct (parse_uncached_wellformed content false root w Hroot)
      as (evs & _ & ->).
    destruct (parse_uncached_wellformed content false root w' Hroot)
      as (evs' & _ & ->). done.
  - by rewrite !parse_uncached_malformed.
Qed.

Section CacheGrowth.
Context `{Collaborators}.

Lemma parse_epg_cache_subseteq (epg_content : option string) (use_cache : bool)
    (w : World) :
  epg_cache w ⊆ epg_cache (parse_epg epg_content use_cache w).2.
Proof.
  destruct (parse_epg_cache epg_content use_cache w)
    as [->|(c & root & _ & _ & _ & Hnone & _ & ->)]; [done|].
  by apply insert_subseteq.
Qed.

(** The world after the loop of [main] when every turn keeps a property of
    the world that does not depend on the trace. *)
Lemma main_body_cache (item : nat * option string) (agg : Aggregate) (w : World) :
  epg_cache (main_body item agg w).2 = epg_cache w
  \/ exists content,
       item.2 = Some content
       /\ (main_body item agg w).2 = (parse_epg (Some content) true w).2.
Proof.
  destruct item as [i [content|]]; unfold main_body; cbn [fst snd].
  - right. exists content. split; [done|]. unfold bind.
    by destruct (parse_epg (Some content) true w).
  - by left.
Qed.

Lemma main_loop_cache_subseteq (epg_contents : list (option string)) (w : World) :
  epg_cache w ⊆ epg_cache (main_loop epg_contents w).2.
Proof.
  unfold main_loop.
  apply (for_each_invariant (fun _ w' => epg_cache w ⊆ epg_cache w') main_body);
    [|done].
  intros item agg w' Hsub.
  destruct (main_body_cache item agg w') as [->|(content & _ & ->)]; [done|].
  etrans; [exact Hsub|apply parse_epg_cache_subseteq].
Qed.

(** [main] unfolded. *)
Lemma main_run (net : Fetcher.Network) (urls : list string) (now : datetime)
    (w : World) :
  urls <> [] ->
  main net urls now w
  = let out := main_loop (Fetcher.fetch_all net urls) w in
    let w' := mkWorld (epg_cache out.2) (next_oid out.2)
                (trace out.2
                 ++ [Printed (MsgParsed (successful_parses out.1) (length urls))]) in
    match all_channels out.1 with
    | [] => (None,
             mkWorld (epg_cache w') (next_oid w') (trace w' ++ [Printed MsgNoChannels]))
    | _ :: _ =>
        (Some (write_to_xml (all_channels out.1) (all_programmes out.1) now), w')
    end.
Proof.
  intros Hne. destruct urls as [|url urls]; [done|].
  unfold main. unfold bind at 1.
  destruct (main_loop (Fetcher.fetch_all net (url :: urls)) w) as [agg w1].
  cbn [fst snd]. unfold bind at 1. cbn [print emit].
  by destruct (all_channels agg).
Qed.

Lemma main_cache (net : Fetcher.Network) (urls : list string) (now : datetime)
    (w : World) :
  epg_cache (main net urls now w).2
  = match urls with
    | [] => epg_cache w
    | _ :: _ => epg_cache (main_loop (Fetcher.fetch_all net urls) w).2
    end.
Proof.
  destruct urls as [|url urls]; [done|].
  rewrite main_run by done. cbv zeta.
  by destruct (all_channels (main_loop (Fetcher.fetch_all net (url :: urls)) w).1).
Qed.

End CacheGrowth.

(** X7. The cache only grows: a call of [parse_epg], the loop of [main] and
    a whole run keep every entry the cache had, with the result it had;
    no entry is removed or replaced. *)
Theorem epg_cache_only_grows `{Collaborators} (w : World) :
  (forall epg_content use_cache,
     epg_cache w ⊆ epg_cache (parse_epg epg_content use_cache w).2)
  /\ (forall epg_contents, epg_cache w ⊆ epg_cache (main_loop epg_contents w).2)
  /\ (forall net urls now, epg_cache w ⊆ epg_cache (main net urls now w).2).
Proof.
  split; [intros; apply parse_epg_cache_subseteq|].
  split; [intros; apply main_loop_cache_subseteq|].
  intros net urls now. rewrite main_cache.
  destruct urls; [done|apply main_loop_cache_subseteq].
Qed.

Section CacheProvenance.
Context `{Collaborators}.

Lemma for_each_invariant_elem {A S} (Inv : S -> World -> Prop) (body : A -> S -> M S)
    (xs : list A) :
  (forall x acc w, x ∈ xs -> Inv acc w -> Inv (body x acc w).1 (body x acc w).2) ->
  forall acc w, Inv acc w -> Inv (for_each xs body acc w).1 (for_each xs body acc w).2.
Proof.
  induction xs as [|x xs IH]; intros Hbody acc w Hinv; simpl; [done|].
  unfold bind. pose proof (Hbody x acc w (list_elem_of_here _ _) Hinv) as Hx.
  destruct (body x acc w) as [acc' w']. apply IH; [|done].
  intros y acc0 w0 Hy. apply Hbody. by apply list_elem_of_further.
Qed.

Lemma elem_of_imap_pair {A} (i : nat) (x : A) (l : list A) :
  (i, x) ∈ imap pair l -> x ∈ l.
Proof.
  intros Hin. apply elem_of_lookup_imap in Hin as (j & y & Heq & Hy).
  apply pair_eq in Heq as [_ ->]. by eapply list_elem_of_lookup_2.
Qed.

End CacheProvenance.

Lemma parse_epg_stores_nonblank `{Collaborators}
    (epg_content : option string) (use_cache : bool) (w : World) :
  epg_cache (parse_epg epg_content use_cache w).2 = epg_cache w
  \/ exists content,
       epg_content = Some content /\ PyStr.strip content <> ""
       /\ is_Some (fromstring content)
       /\ epg_cache (parse_epg epg_content use_cache w).2
          = <[get_content_hash content := (parse_epg epg_content use_cache w).1]>
              (epg_cache w).
Proof.
  destruct epg_content as [content|]; [|left; by rewrite parse_epg_blank].
  destruct (decide (PyStr.strip content = "")) as [Hb|Hb].
  { left. by rewrite parse_epg_blank. }
  destruct (parse_epg_cache (Some content) use_cache w)
    as [Heq|(c & root & Hc & Hroot & _ & _ & _ & Heq)]; [by left|].
  apply (inj Some) in Hc. subst c.
  right. exists content. split; [done|]. split; [done|]. split; [by exists root|done].
Qed.

(** X8. What the cache holds after the loop of [main]: every entry was
    there before, or is filed under the fingerprint of a fetched document
    that is not blank and that the markup reader accepts.  A failed parse
    and a blank document leave no entry. *)
Theorem epg_cache_holds_successes `{Collaborators}
    (epg_contents : list (option string)) (w : World) :
  map_Forall
    (fun h r =>
       epg_cache w !! h = Some r
       \/ exists content,
            Some content ∈ epg_contents /\ get_content_hash content = h
            /\ PyStr.strip content <> "" /\ is_Some (fromstring content))
    (epg_cache (main_loop epg_contents w).2).
Proof.
  unfold main_loop.
  apply (for_each_invariant_elem
           (fun _ w' =>
              map_Forall
                (fun h r =>
                   epg_cache w !! h = Some r
                   \/ exists content,
                        Some content ∈ epg_contents /\ get_content_hash content = h
                        /\ PyStr.strip content <> "" /\ is_Some (fromstring content))
                (epg_cache w')) main_body).
  - intros [i item] agg w' Hin Hinv.
    destruct (main_body_cache (i, item) agg w') as [->|(content & Hitem & ->)];
      [done|].
    cbn [snd] in Hitem. subst item. apply elem_of_imap_pair in Hin.
    destruct (parse_epg_stores_nonblank (Some content) true w')
      as [->|(c & Hc & Hb & Hroot & ->)]; [done|].
    apply (inj Some) in Hc. subst c.
    apply map_Forall_insert_2; [|done].
    right. by exists content.
  - intros h r Hr. by left.
Qed.

(** A malformed document, a failed fetch, a blank document and the same
    document twice: one entry. *)
Example epg_cache_after_loop :
  (fun c => (size c, c !! Reference.malformed_text, c !! "  ",
             channels <$> c !! Reference.source_A_text))
    (epg_cache
       (main_loop (H := Reference.collaborators)
          [Some Reference.malformed_text; None; Some "  ";
           Some Reference.source_A_text; Some Reference.source_A_text]
          initial_world).2)
  = (1, None, None, Some [("ch1", Some "A Name")]).
Proof. vm_compute. reflexivity. Qed.

(** ** Each document is read once *)

Section ReadOnce.
Context `{Collaborators}.

Lemma reads_of_app (content : string) (w : World) (c : gmap string ParseResult)
    (n : nat) (evs : list Event) :
  reads_of content (mkWorld c n (trace w ++ evs))
  = reads_of content w + length (List.filter (is_read_of content) evs).
Proof. unfold reads_of. simpl. by rewrite List.filter_app, length_app. Qed.

Lemma no_parse_call_no_read (content : string) (evs : list Event) :
  no_parse_call evs -> List.filter (is_read_of content) evs = [].
Proof.
  induction 1 as [|ev evs Hev _ IH]; simpl; [done|].
  destruct ev; simpl in *; try done.
Qed.

(** What one call of [parse_epg] with the cache adds to the reads of a
    well-formed document. *)
Lemma parse_epg_reads (epg_content : option string) (w : World)
    (content : string) (root : Element) :
  fromstring content = Some root ->
  reads_of content (parse_epg epg_content true w).2 = reads_of content w
  \/ (reads_of content (parse_epg epg_content true w).2 = S (reads_of content w)
      /\ epg_cache w !! get_content_hash content = None
      /\ is_Some (epg_cache (parse_epg epg_content true w).2
                    !! get_content_hash content)).
Proof.
  intros Hroot.
  destruct epg_content as [c|];
    [|left; rewrite parse_epg_blank by done; simpl;
      rewrite reads_of_app; simpl; lia].
  destruct (decide (PyStr.strip c = "")) as [Hb|Hb];
    [left; rewrite parse_epg_blank by done; simpl;
     rewrite reads_of_app; simpl; lia|].
  destruct (epg_cache w !! get_content_hash c) as [r0|] eqn:Hc.
  { left. rewrite (parse_epg_hit _ _ _ Hb Hc). simpl.
    rewrite reads_of_app. simpl. lia. }
  rewrite (parse_epg_miss c true w Hb Hc).
  destruct (fromstring c) as [root'|] eqn:Hroot'.
  - destruct (parse_uncached_wellformed c true root' w Hroot')
      as (evs & Hq & ->). simpl. rewrite reads_of_app. simpl.
    rewrite List.filter_app, (no_parse_call_no_read _ _ Hq). simpl.
    destruct (decide (c = content)) as [->|Hne].
    + right. rewrite bool_decide_true by done. simpl.
      split; [lia|]. split; [done|]. rewrite lookup_insert_eq. by eexists.
    + left. rewrite bool_decide_false by done. simpl. lia.
  - left. rewrite parse_uncached_malformed by done. simpl.
    rewrite reads_of_app. simpl.
    rewrite bool_decide_false by (intros ->; congruence). simpl. lia.
Qed.

Lemma main_body_reads (item : nat * option string) (agg : Aggregate) (w : World)
    (content : string) :
  (reads_of content (main_body item agg w).2 = reads_of content w
   /\ epg_cache (main_body item agg w).2 = epg_cache w)
  \/ exists c,
       item.2 = Some c
       /\ (main_body item agg w).2 = (parse_epg (Some c) true w).2.
Proof.
  destruct item as [i [c|]]; unfold main_body; cbn [fst snd].
  - right. exists c. split; [done|]. unfold bind.
    by destruct (parse_epg (Some c) true w).
  - left. unfold bind, print, emit, ret. simpl. rewrite reads_of_app. simpl.
    split; [lia|done].
Qed.

Lemma main_loop_reads (epg_contents : list (option string)) (w : World)
    (content : string) (root : Element) :
  fromstring content = Some root ->
  reads_of content (main_loop epg_contents w).2 = reads_of content w
  \/ (reads_of content (main_loop epg_contents w).2 = S (reads_of content w)
      /\ is_Some (epg_cache (main_loop epg_contents w).2
                    !! get_content_hash content)).
Proof.
  intros Hroot. unfold main_loop.
  apply (for_each_invariant
           (fun _ w' =>
              reads_of content w' = reads_of content w
              \/ (reads_of content w' = S (reads_of content w)
                  /\ is_Some (epg_cache w' !! get_content_hash content)))
           main_body); [|by left].
  intros item agg w' Hinv.
  destruct (main_body_reads item agg w' content) as [[-> ->]|(c & _ & ->)];
    [done|].
  pose proof (parse_epg_cache_subseteq (Some c) true w') as Hsub.
  destruct (parse_epg_reads (Some c) w' content root Hroot)
    as [->|(-> & Hnone & Hsome)].
  - destruct Hinv as [?|[? Hs]]; [by left|right]. split; [done|].
    destruct Hs as [r Hr]. exists r. by eapply lookup_weaken.
  - destruct Hinv as [->|[_ [r Hr]]]; [by right|]. congruence.
Qed.

End ReadOnce.

(** X9. Each well-formed document is read once: along the loop of [main],
    and so along a whole run, the markup reader is called at most once on
    a text it accepts, however many sources deliver that text. *)
Theorem wellformed_document_read_once `{Collaborators}
    (content : string) (root : Element) (w : World) :
  fromstring content = Some root ->
  (forall epg_contents,
     reads_of content (main_loop epg_contents w).2 <= S (reads_of content w))
  /\ (forall net urls now,
        reads_of content (main net urls now w).2 <= S (reads_of content w)).
Proof.
  intros Hroot.
  assert (Hloop : forall epg_contents,
            reads_of content (main_loop epg_contents w).2 <= S (reads_of content w)).
  { intros epg_contents.
    destruct (main_loop_reads epg_contents w content root Hroot) as [->|[-> _]]; lia. }
  split; [exact Hloop|].
  intros net urls now. destruct urls as [|url urls].
  - unfold main, bind, print, emit, ret. simpl. rewrite reads_of_app. simpl. lia.
  - rewrite main_run by done. cbv zeta.
    specialize (Hloop (Fetcher.fetch_all net (url :: urls))).
    destruct (main_loop (Fetcher.fetch_all net (url :: urls)) w) as [agg w1].
    cbn [fst snd] in *.
    destruct (all_channels agg); cbn [snd]; rewrite !reads_of_app; simpl; lia.
Qed.

Lemma wellformed_document_read_once_witness :
  reads_of Reference.source_A_text
    (main_loop (H := Reference.collaborators)
       [Some Reference.source_A_text; Some Reference.source_B_text;
        Some Reference.source_A_text; Some Reference.source_A_text]
       initial_world).2
  <= 1.
Proof.
  exact (proj1 (wellformed_document_read_once (H := Reference.collaborators)
                  Reference.source_A_text Reference.source_A initial_world eq_refl)
           [Some Reference.source_A_text; Some Reference.source_B_text;
            Some Reference.source_A_text; Some Reference.source_A_text]).
Defined.

(** ** When a run writes, and what *)

Lemma set_nonempty {V} (k : string) (v : V) (d : Dict.t V) : Dict.set k v d <> [].
Proof. destruct d as [|[k' v'] d]; simpl; [done|]. by case_decide. Qed.

Lemma update_nonempty {V} (d other : Dict.t V) :
  d <> [] -> Dict.update d other <> [].
Proof.
  unfold Dict.update. revert d.
  induction other as [|kv other IH]; intros d Hd; simpl; [done|].
  apply IH. apply set_nonempty.
Qed.

Lemma merge_one_no_channel (agg : Aggregate) (r : ParseResult) :
  all_channels (merge_one agg r) = []
  <-> all_channels agg = [] /\ channels r = [].
Proof.
  unfold merge_one. destruct (channels r) as [|kv d] eqn:Hch; simpl.
  - split; [done|by intros [? _]].
  - split; [|by intros [_ ?]]. intros Hu. exfalso.
    unfold Dict.update in Hu. simpl in Hu.
    by apply (update_nonempty (Dict.set kv.1 kv.2 (all_channels agg)) d
                (set_nonempty _ _ _)).
Qed.

Lemma merge_from_no_channel (results : list ParseResult) (agg : Aggregate) :
  all_channels (fold_left merge_one results agg) = []
  <-> all_channels agg = [] /\ Forall (fun r => channels r = []) results.
Proof.
  revert agg. induction results as [|r results IH]; intros agg; simpl.
  - split; [by intros ?; split|by intros [? _]].
  - rewrite IH, merge_one_no_channel, Forall_cons. tauto.
Qed.

(** X10. A run writes a guide exactly when one of the fetched documents has
    a channel: [main] returns the tree of the merge of the parse results
    when some result has a channel, and writes nothing when none has, in
    particular when there is no locator or no document could be fetched. *)
Theorem main_writes_iff_channel `{Collaborators}
    (net : Fetcher.Network) (urls : list string) (now : datetime) (w : World) :
  let results := loop_results (imap pair (Fetcher.fetch_all net urls)) w in
  match (main net urls now w).1 with
  | Some out =>
      Exists (fun r => channels r <> []) results
      /\ out = write_to_xml (all_channels (merge results))
                 (all_programmes (merge results)) now
  | None => Forall (fun r => channels r = []) results
  end.
Proof.
  intros results. destruct urls as [|url urls]; [by constructor|].
  rewrite main_run by done. cbv zeta.
  rewrite main_loop_merge. fold results.
  destruct (all_channels (merge results)) as [|kv d] eqn:Hch; cbn [fst].
  - by apply (merge_from_no_channel results empty_aggregate) in Hch as [_ ?].
  - split; [|done].
    apply not_Forall_Exists; [intros r; apply _|].
    intros Hall.
    assert (all_channels (merge results) = []) as Hnil
      by (apply merge_from_no_channel; by split).
    congruence.
Qed.

Section AllFail.
Context `{Collaborators}.



End AllFail.



(** ** The tree of a run *)

Section Tagged.
Context `{Collaborators}.

Lemma tagged_set (k : string) (l : list Element) (d : Dict.t (list Element)) :
  all_tagged d -> Forall (fun p => tag p = "programme") l ->
  all_tagged (Dict.set k l d).
Proof.
  unfold all_tagged. intros Hd Hl.
  induction Hd as [|[k0 l0] d Hk0 Hd IH]; simpl.
  - by repeat constructor.
  - destruct (decide (k0 = k)) as [->|Hne]; by constructor.
Qed.

Lemma tagged_getlist (k : string) (d : Dict.t (list Element)) :
  all_tagged d -> Forall (fun p => tag p = "programme") (Dict.getlist k d).
Proof.
  unfold all_tagged, Dict.getlist. induction 1 as [|[k0 l0] d Hk0 Hd IH]; simpl.
  - constructor.
  - destruct (decide (k0 = k)) as [->|Hne]; [exact Hk0|exact IH].
Qed.

Lemma tagged_extend (k : string) (l : list Element) (d : Dict.t (list Element)) :
  all_tagged d -> Forall (fun p => tag p = "programme") l ->
  all_tagged (Dict.extend k l d).
Proof.
  intros Hd Hl. apply tagged_set; [done|].
  apply Forall_app. split; [by apply tagged_getlist|done].
Qed.

Lemma tagged_document (root : Element) : all_tagged (document_programmes root).
Proof.
  unfold document_programmes.
  assert (Hfold : forall es d, all_tagged d -> all_tagged (fold_left programme_step es d)).
  { induction es as [|e es IH]; intros d Hd; simpl; [done|].
    apply IH. unfold programme_step.
    destruct (filed_as e) as [[k p]|] eqn:Ha; [|done].
    apply tagged_extend; [done|]. repeat constructor.
    by destruct (filed_attrib _ _ _ Ha) as (ds & dt & _ & _ & Htag & _). }
  apply Hfold. constructor.
Qed.

Lemma tagged_parse_epg (epg_content : option string) (use_cache : bool) (w : World) :
  cache_sound w -> all_tagged (programmes (parse_epg epg_content use_cache w).1).
Proof.
  intros Hs.
  destruct epg_content as [content|]; [|rewrite parse_epg_blank by done; constructor].
  destruct (decide (PyStr.strip content = "")) as [Hb|Hb];
    [rewrite parse_epg_blank by done; constructor|].
  destruct (if use_cache then epg_cache w !! get_content_hash content else None)
    as [r0|] eqn:Hc.
  - destruct use_cache; [|done]. rewrite (parse_epg_hit _ _ _ Hb Hc). simpl.
    destruct (Hs _ _ Hc) as (root & _ & ->). apply tagged_document.
  - rewrite (parse_epg_miss _ _ _ Hb Hc).
    destruct (fromstring content) as [root|] eqn:Hroot.
    + destruct (parse_uncached_wellformed content use_cache root w Hroot)
        as (evs & _ & ->). apply tagged_document.
    + rewrite parse_uncached_malformed by done. constructor.
Qed.

Lemma tagged_merge_one (agg : Aggregate) (r : ParseResult) :
  all_tagged (all_programmes agg) -> all_tagged (programmes r) ->
  all_tagged (all_programmes (merge_one agg r)).
Proof.
  intros Hagg Hr. unfold merge_one.
  destruct (Dict.nonempty (channels r)); simpl; [|done].
  unfold extend_all. revert Hagg. generalize (all_programmes agg).
  induction Hr as [|[k0 l0] o Hk0 Ho IH]; intros d Hd; simpl; [done|].
  apply IH. by apply tagged_extend.
Qed.

Lemma wf_merge_one (agg : Aggregate) (r : ParseResult) :
  NoDup (Dict.keys (all_channels agg)) ->
  NoDup (Dict.keys (all_channels (merge_one agg r))).
Proof.
  intros Hagg. unfold merge_one.
  destruct (Dict.nonempty (channels r)); simpl; [|done].
  by apply DictFacts.wf_update.
Qed.

(** What the loop of [main] keeps. *)
Lemma main_loop_invariants (epg_contents : list (option string)) (w : World) :
  cache_sound w ->
  keyed (all_programmes (main_loop epg_contents w).1)
  /\ all_tagged (all_programmes (main_loop epg_contents w).1)
  /\ NoDup (Dict.keys (all_channels (main_loop epg_contents w).1)).
Proof.
  intros Hs. split; [by apply keyed_main_loop|].
  unfold main_loop.
  apply (for_each_invariant
           (fun agg w' =>
              (all_tagged (all_programmes agg)
               /\ NoDup (Dict.keys (all_channels agg))) /\ cache_sound w')
           main_body).
  - intros [i [content|]] agg w' [[Ht Hn] Hs']; unfold main_body; cbn [snd fst];
      [|by simpl].
    unfold bind.
    pose proof (tagged_parse_epg (Some content) true w' Hs') as Hr.
    pose proof (cache_sound_preserved (Some content) true w' Hs') as Hw.
    destruct (parse_epg (Some content) true w') as [r w'']. cbn [snd fst ret] in *.
    split; [|done]. split; [by apply tagged_merge_one|by apply wf_merge_one].
  - split; [|done]. split; [constructor|apply NoDup_nil_2].
Qed.

End Tagged.

Lemma root_add_channels (chs : Dict.t (option string)) (root : Element) :
  attrib (fold_left add_channel chs root) = attrib root
  /\ text (fold_left add_channel chs root) = text root.
Proof.
  revert root. induction chs as [|kv chs IH]; intros root; simpl; [done|].
  by destruct (IH (add_channel root kv)) as [-> ->].
Qed.

Lemma root_add_programmes (progs : Dict.t (list Element)) (root : Element) :
  tag (fold_left add_programmes progs root) = tag root
  /\ attrib (fold_left add_programmes progs root) = attrib root
  /\ text (fold_left add_programmes progs root) = text root.
Proof.
  revert root. induction progs as [|kv progs IH]; intros root; simpl; [done|].
  destruct (IH (add_programmes root kv)) as (-> & -> & ->).
  unfold add_programmes. generalize kv.2. intros ps. revert root.
  induction ps as [|p ps IHp]; intros root; simpl; [done|].
  by destruct (IHp (ET.append (ET.set "channel" kv.1 p) root)) as (-> & -> & ->).
Qed.

Lemma filter_channel_trees (chs : Dict.t (option string)) (t : string) :
  filter (fun c => tag c = t) (map channel_tree chs)
  = if decide (t = "channel") then map channel_tree chs else [].
Proof.
  induction chs as [|kv chs IH]; simpl; [by case_decide|].
  rewrite filter_cons, IH. simpl.
  destruct (decide (t = "channel")) as [->|Hne].
  - by rewrite decide_True.
  - by rewrite decide_False.
Qed.

Lemma filter_programmes (ps : list Element) (t : string) :
  Forall (fun p => tag p = "programme") ps ->
  filter (fun c => tag c = t) ps = if decide (t = "programme") then ps else [].
Proof.
  induction 1 as [|p ps Hp _ IH]; simpl; [by case_decide|].
  rewrite filter_cons, IH, Hp.
  destruct (decide (t = "programme")) as [->|Hne].
  - by rewrite decide_True.
  - by rewrite decide_False.
Qed.

Lemma tagged_concat (d : Dict.t (list Element)) :
  all_tagged d -> Forall (fun p => tag p = "programme") (concat (map snd d)).
Proof.
  induction 1 as [|kv d Hkv _ IH]; simpl; [constructor|].
  apply Forall_app. by split.
Qed.

Lemma channel_tree_ids (chs : Dict.t (option string)) :
  (fun c => ET.get c "id") <$> map channel_tree chs = Some <$> Dict.keys chs.
Proof.
  unfold Dict.keys. induction chs as [|kv chs IH]; [done|].
  cbn [map fmap list_fmap]. f_equal. exact IH.
Qed.

(** X12. The tree a run writes: the root is [tv] with the date of the run
    in the output format as its only attribute; its children are one
    [channel] element for each channel of the aggregate, in the order of
    the aggregate, then every programme of the aggregate, channel by
    channel and unchanged; no channel id is listed twice. *)
Theorem main_output_structure `{Collaborators}
    (net : Fetcher.Network) (urls : list string) (now : datetime) (w : World)
    (out : Element) :
  cache_sound w ->
  (main net urls now w).1 = Some out ->
  let agg := (main_loop (Fetcher.fetch_all net urls) w).1 in
  tag out = "tv"
  /\ attrib out = [("date", Strftime.wall_clock now +:+ " +0800")]
  /\ text out = None
  /\ ET.findall out "channel" = map channel_tree (all_channels agg)
  /\ ET.findall out "programme" = concat (map snd (all_programmes agg))
  /\ children out = ET.findall out "channel" ++ ET.findall out "programme"
  /\ NoDup ((fun c => ET.get c "id") <$> ET.findall out "channel").
Proof.
  intros Hs Hout agg.
  destruct (main_loop_invariants (Fetcher.fetch_all net urls) w Hs)
    as (Hkeyed & Htagged & Hnodup). fold agg in Hkeyed, Htagged, Hnodup.
  assert (Hw : out = write_to_xml (all_channels agg) (all_programmes agg) now).
  { destruct urls as [|url urls]; [done|].
    rewrite main_run in Hout by done. cbv zeta in Hout. fold agg in Hout.
    destruct (all_channels agg); [done|]. cbn [fst] in Hout.
    by apply (inj Some) in Hout. }
  assert (Hchildren : children out
            = map channel_tree (all_channels agg)
              ++ concat (map snd (all_programmes agg))).
  { rewrite Hw, children_write_to_xml. by rewrite written_programmes_keyed. }
  assert (Hc : ET.findall out "channel" = map channel_tree (all_channels agg)).
  { unfold ET.findall. rewrite Hchildren, filter_app, filter_channel_trees.
    rewrite (filter_programmes _ _ (tagged_concat _ Htagged)).
    rewrite decide_True by done. rewrite decide_False by done.
    by rewrite app_nil_r. }
  assert (Hp : ET.findall out "programme" = concat (map snd (all_programmes agg))).
  { unfold ET.findall. rewrite Hchildren, filter_app, filter_channel_trees.
    rewrite (filter_programmes _ _ (tagged_concat _ Htagged)).
    rewrite decide_False by done. by rewrite decide_True by done. }
  rewrite Hc, Hp. split; [|split; [|split; [|do 3 (split; [done|])]]].
  - rewrite Hw. unfold write_to_xml.
    destruct (root_add_programmes (all_programmes agg)
                (fold_left add_channel (all_channels agg)
                   (mkElement "tv"
                      [("date", Strftime.strftime output_format now)] None [])))
      as (-> & _).
    by destruct (children_add_channels (all_channels agg)
                   (mkElement "tv"
                      [("date", Strftime.strftime output_format now)] None []))
      as [_ ->].
  - rewrite Hw. unfold write_to_xml.
    destruct (root_add_programmes (all_programmes agg)
                (fold_left add_channel (all_channels agg)
                   (mkElement "tv"
                      [("date", Strftime.strftime output_format now)] None [])))
      as (_ & -> & _).
    destruct (root_add_channels (all_channels agg)
                (mkElement "tv"
                   [("date", Strftime.strftime output_format now)] None []))
      as [-> _].
    cbn [attrib]. by rewrite strftime_output_format.
  - rewrite Hw. unfold write_to_xml.
    destruct (root_add_programmes (all_programmes agg)
                (fold_left add_channel (all_channels agg)
                   (mkElement "tv"
                      [("date", Strftime.strftime output_format now)] None [])))
      as (_ & _ & ->).
    by destruct (root_add_channels (all_channels agg)
                   (mkElement "tv"
                      [("date", Strftime.strftime output_format now)] None []))
      as [_ ->].
  - rewrite channel_tree_ids. apply NoDup_fmap_2; [apply _|exact Hnodup].
Qed.

Lemma main_output_structure_witness :
  exists out,
    (main (H := Reference.collaborators)
       (fun _ url => Fetcher.Returns (Fetcher.mkResponse 200 (Fetcher.Returns url)))
       [Reference.source_A_text; Reference.source_B_text; Reference.source_D_text]
       (mkDatetime 2024 1 2 3 4 5 0) initial_world).1 = Some out
    /\ (fun c => ET.get c "id") <$> ET.findall out "channel" = [Some "ch1"; Some "c1"]
    /\ length (ET.findall out "programme") = 3
    /\ length (children out) = 5.
Proof.
  pose proof (main_output_structure (H := Reference.collaborators)
                (fun _ url => Fetcher.Returns
                                (Fetcher.mkResponse 200 (Fetcher.Returns url)))
                [Reference.source_A_text; Reference.source_B_text;
                 Reference.source_D_text]
                (mkDatetime 2024 1 2 3 4 5 0) initial_world) as Hthm.
  destruct (main (H := Reference.collaborators)
              (fun _ url => Fetcher.Returns
                              (Fetcher.mkResponse 200 (Fetcher.Returns url)))
              [Reference.source_A_text; Reference.source_B_text;
               Reference.source_D_text]
              (mkDatetime 2024 1 2 3 4 5 0) initial_world).1 as [out|] eqn:Hout.
  - exists out. split; [reflexivity|].
    destruct (Hthm out (cache_sound_initial (H := Reference.collaborators)) eq_refl)
      as (_ & _ & _ & Hc & Hp & Hch & _).
    rewrite Hch, length_app, Hc, Hp. vm_compute. repeat split.
  - vm_compute in Hout. discriminate Hout.
Defined.

(** ** What the run reports *)

Lemma successful_parses_from (results : list ParseResult) (agg : Aggregate) :
  successful_parses (fold_left merge_one results agg)
  = successful_parses agg + length (merged_sources results).
Proof.
  revert agg. unfold merged_sources.
  induction results as [|r results IH]; intros agg; simpl; [lia|].
  rewrite IH. unfold merge_one.
  destruct (Dict.nonempty (channels r)); simpl; lia.
Qed.

(** X13. The count of parsed sources: the number the run reports, out of
    the number of locators, is the number of fetched documents whose parse
    result has a channel; a document without channel is not counted, even
    when it has programmes. *)
Theorem main_reports_merged_sources `{Collaborators}
    (net : Fetcher.Network) (urls : list string) (now : datetime) (w : World) :
  urls <> [] ->
  let results := loop_results (imap pair (Fetcher.fetch_all net urls)) w in
  successful_parses (main_loop (Fetcher.fetch_all net urls) w).1
  = length (merged_sources results)
  /\ length (merged_sources results) <= length urls
  /\ Printed (MsgParsed (length (merged_sources results)) (length urls))
     ∈ trace (main net urls now w).2.
Proof.
  intros Hne results.
  assert (Hcount : successful_parses (main_loop (Fetcher.fetch_all net urls) w).1
                   = length (merged_sources results)).
  { rewrite main_loop_merge. unfold merge. by rewrite successful_parses_from. }
  split; [exact Hcount|]. split.
  - etrans; [apply List.filter_length_le|].
    assert (Hlen : forall items w', length (loop_results items w') <= length items).
    { induction items as [|[i [c|]] items IH]; intros w';
        cbn [loop_results length]; [lia| |].
      - specialize (IH (parse_epg (Some c) true w').2). lia.
      - specialize (IH (print (MsgUrlEmpty (i + 1)) w').2). lia. }
    etrans; [apply Hlen|].
    unfold Fetcher.fetch_all, Fetcher.gather.
    by rewrite length_imap, length_fmap, length_imap.
  - rewrite main_run by done. cbv zeta. rewrite Hcount.
    destruct (all_channels (main_loop (Fetcher.fetch_all net urls) w).1);
      cbn [snd trace]; rewrite !elem_of_app, !list_elem_of_singleton; auto.
Qed.

Lemma main_reports_merged_sources_witness :
  Printed (MsgParsed 1 3)
  ∈ trace (main (H := Reference.collaborators)
             (fun i url =>
                match i with
                | 0 => Fetcher.Raises Fetcher.ClientError
                | _ => Fetcher.Returns (Fetcher.mkResponse 200 (Fetcher.Returns url))
                end)
             ["http://a"; Reference.source_C_text; Reference.source_A_text]
             (mkDatetime 2024 1 2 3 4 5 0) initial_world).2.
Proof.
  exact (proj2 (proj2 (main_reports_merged_sources (H := Reference.collaborators)
           (fun i url =>
              match i with
              | 0 => Fetcher.Raises Fetcher.ClientError
              | _ => Fetcher.Returns (Fetcher.mkResponse 200 (Fetcher.Returns url))
              end)
           ["http://a"; Reference.source_C_text; Reference.source_A_text]
           (mkDatetime 2024 1 2 3 4 5 0) initial_world ltac:(discriminate)))).
Defined.

Lemma imap_pair_snd {A} (f : nat -> nat) (l : list A) :
  (imap (fun i x => (f i, x)) l).*2 = l.
Proof.
  revert f. induction l as [|x l IH]; intros f; [done|].
  cbn [imap fmap list_fmap snd]. f_equal. apply (IH (f ∘ S)).
Qed.

(** X14. The aggregate of a run in terms of its documents: after the loop
    of [main], started with a cache that holds stored parse results only,
    the display name of a channel is the one of the last fetched document
    that defines it, and the programmes of a channel are those of the
    fetched documents that have a channel, document after document; a
    failed fetch contributes nothing. *)
Theorem main_loop_merges_documents `{Collaborators}
    (epg_contents : list (option string)) (w : World) (k : string) :
  cache_sound w ->
  let results := loop_results (imap pair epg_contents) w in
  length results = length (omap id epg_contents)
  /\ Dict.get k (all_channels (main_loop epg_contents w).1) = last_defined k results
  /\ Dict.getlist k (all_programmes (main_loop epg_contents w).1)
     = contributions k (merged_sources results).
Proof.
  intros Hs results. split; [|by apply main_loop_aggregate].
  subst results.
  assert (Hsnd : (imap pair epg_contents).*2 = epg_contents)
    by exact (imap_pair_snd id epg_contents).
  assert (Hlen : forall items w',
            length (loop_results items w') = length (omap id (items.*2))).
  { induction items as [|[i [c|]] items IH]; intros w';
      cbn [loop_results length fmap list_fmap omap list_omap snd id]; [done| |].
    - by rewrite IH.
    - by rewrite IH. }
  by rewrite Hlen, Hsnd.
Qed.

Lemma main_loop_merges_documents_witness :
  (fun agg => (Dict.get "ch1" (all_channels agg),
               length (Dict.getlist "ch1" (all_programmes agg)),
               length (Dict.getlist "c1" (all_programmes agg))))
    (main_loop (H := Reference.collaborators)
       [Some Reference.source_B_text; None; Some Reference.source_C_text;
        Some Reference.source_A_text] initial_world).1
  = (Some (Some "A Name"), 2, 0).
Proof.
  cbv beta.
  pose proof (fun k =>
    main_loop_merges_documents (H := Reference.collaborators)
      [Some Reference.source_B_text; None; Some Reference.source_C_text;
       Some Reference.source_A_text] initial_world k
      (cache_sound_initial (H := Reference.collaborators))) as Hrun.
  rewrite (proj1 (proj2 (Hrun "ch1"))), (proj2 (proj2 (Hrun "ch1"))),
    (proj2 (proj2 (Hrun "c1"))).
  vm_compute. reflexivity.
Defined.

(** ** Whitespace in timestamps, and a converter that fails *)



(** X16. A converter that fails: when [cc.convert] raises on every input,
    [parse_epg] returns what it returns when the converter leaves every
    input as it is, and stores the same in the cache; no channel and no
    programme is lost. *)
Theorem parse_epg_converter_failure
    (md5 : string -> string) (reader : string -> option Element)
    (strp : string -> option datetime)
    (epg_content : option string) (use_cache : bool) (w : World) :
  (parse_epg (H := Build_Collaborators (fun _ => None) md5 reader strp)
     epg_content use_cache w).1
  = (parse_epg (H := Build_Collaborators Some md5 reader strp)
       epg_content use_cache w).1
  /\ epg_cache
       (parse_epg (H := Build_Collaborators (fun _ => None) md5 reader strp)
          epg_content use_cache w).2
     = epg_cache
         (parse_epg (H := Build_Collaborators Some md5 reader strp)
            epg_content use_cache w).2.
Proof.
  set (Hfail := Build_Collaborators (fun _ => None) md5 reader strp).
  set (Hid := Build_Collaborators Some md5 reader strp).
  destruct epg_content as [content|]; [|by rewrite !parse_epg_blank].
  destruct (decide (PyStr.strip content = "")) as [Hb|Hb];
    [by rewrite !parse_epg_blank|].
  destruct (if use_cache then epg_cache w !! md5 content else None)
    as [r0|] eqn:Hc.
  - destruct use_cache; [|done].
    by rewrite (parse_epg_hit (H := Hfail) content r0 w Hb Hc),
      (parse_epg_hit (H := Hid) content r0 w Hb Hc).
  - rewrite (parse_epg_miss (H := Hfail) content use_cache w Hb Hc),
      (parse_epg_miss (H := Hid) content use_cache w Hb Hc).
    destruct (reader content) as [root|] eqn:Hroot.
    + destruct (parse_uncached_wellformed (H := Hfail) content use_cache root w Hroot)
        as (evs & _ & ->).
      destruct (parse_uncached_wellformed (H := Hid) content use_cache root w Hroot)
        as (evs' & _ & ->).
      done.
    + by rewrite (parse_uncached_malformed (H := Hfail) content use_cache w Hroot),
        (parse_uncached_malformed (H := Hid) content use_cache w Hroot).
Qed.
